(** * Review-dispatch engine of Code-Review-GPT-Gitlab

    A shallow embedding of [review_engine/handler/default_handler.py]
    (with the constants it reads from [config/config.py]) and the
    properties of its file filter, its reasoning stripper, its per-file
    worker, its dispatcher and its merge-request handler. *)

From Stdlib Require Import String Ascii DecimalString.
From Stdlib Require Import List Bool Arith NArith ZArith Lia Permutation.
Import ListNotations.

Set Implicit Arguments.

(* ================================================================== *)
(** * Python text *)
(* ================================================================== *)

(** A Python [str] is a sequence of Unicode code points. *)
Definition str := list N.

(** String literals of the source are written as Rocq strings holding their
    UTF-8 bytes and decoded to code points. *)
Fixpoint utf8_decode (bs : list N) : str :=
  match bs with
  | [] => []
  | b :: r =>
    if (b <? 128)%N then b :: utf8_decode r
    else if (b <? 224)%N then
      match r with
      | b1 :: r1 => ((b - 192) * 64 + (b1 - 128))%N :: utf8_decode r1
      | _ => []
      end
    else if (b <? 240)%N then
      match r with
      | b1 :: b2 :: r2 =>
        ((b - 224) * 4096 + (b1 - 128) * 64 + (b2 - 128))%N :: utf8_decode r2
      | _ => []
      end
    else
      match r with
      | b1 :: b2 :: b3 :: r3 =>
        ((b - 240) * 262144 + (b1 - 128) * 4096 + (b2 - 128) * 64 + (b3 - 128))%N
          :: utf8_decode r3
      | _ => []
      end
  end.

Definition py (s : string) : str :=
  utf8_decode (map N_of_ascii (list_ascii_of_string s)).

Fixpoint str_eqb (a b : str) : bool :=
  match a, b with
  | [], [] => true
  | x :: a', y :: b' => (x =? y)%N && str_eqb a' b'
  | _, _ => false
  end.

(** [s.startswith(t)] *)
Fixpoint startswith (s t : str) {struct t} : bool :=
  match t with
  | [] => true
  | y :: t' =>
    match s with
    | [] => false
    | x :: s' => (x =? y)%N && startswith s' t'
    end
  end.

(** [s.endswith(t)]: the last [len(t)] code points of [s] are [t]. *)
Definition endswith (s t : str) : bool :=
  (length t <=? length s) && str_eqb (skipn (length s - length t) s) t.

(** [str(n)] and [f"{n}"] for an [int]. *)
Definition str_of_Z (z : Z) : str :=
  py (NilZero.string_of_int (Z.to_int z)).

(** [sep.join(parts)] for a list of [str]. *)
Fixpoint join (sep : str) (parts : list str) : str :=
  match parts with
  | [] => []
  | [p] => p
  | p :: rest => p ++ sep ++ join sep rest
  end.

(* ================================================================== *)
(** * Configuration ([config/config.py]) *)
(* ================================================================== *)

Module Config.

Definition MAX_FILES : nat := 50.

Definition EXCLUDE_FILE_TYPES : list str :=
  map py [".js"; ".ts"; ".tsx"; ".less"; ".py"; ".java"; ".class"; ".vue";
          ".go"; ".c"; ".cpp"]%string.

Definition IGNORE_FILE_TYPES : list str := [py "mod.go"].

End Config.

(* ================================================================== *)
(** * File filter *)
(* ================================================================== *)

(** [any(path.endswith(ext) for ext in exts)] *)
Definition any_endswith (path : str) (exts : list str) : bool :=
  existsb (fun ext => endswith path ext) exts.

(** The condition both [chat_review] and [default_handle] test on
    [change["new_path"]]:
    [any(p.endswith(e) for e in inc) and not any(p.endswith(e) for e in ign)]. *)
Definition is_review_file (inc ign : list str) (path : str) : bool :=
  any_endswith path inc && negb (any_endswith path ign).

(** The specification's wording: [p] ends with [e]. *)
Definition has_suffix (p e : str) : Prop := exists pre, p = pre ++ e.

Definition spec_is_reviewable (inc ign : list str) (p : str) : Prop :=
  (exists e, In e inc /\ has_suffix p e) /\
  ~ (exists e, In e ign /\ has_suffix p e).

(* ================================================================== *)
(** * Reasoning stripper ([remove_think_content]) *)
(* ================================================================== *)

Definition open_tag : str := py "<think>".
Definition close_tag : str := py "</think>".

(** [s.find(needle)]: offset of the leftmost occurrence. *)
Fixpoint find (needle s : str) : option nat :=
  if startswith s needle then Some 0
  else match s with
       | [] => None
       | _ :: s' => option_map S (find needle s')
       end.

(** Length of the match of [<think>.*?</think>] (with [re.DOTALL]) anchored
    at the head of [s]: the open tag, then the shortest text that is
    followed by a close tag. *)
Definition match_at (s : str) : option nat :=
  if startswith s open_tag then
    match find close_tag (skipn (List.length open_tag) s) with
    | Some k => Some (List.length open_tag + k + List.length close_tag)
    | None => None
    end
  else None.

(** [re.sub(r"<think>.*?</think>", "", s, flags=re.DOTALL)]: scan from the
    left; where a match starts drop it and resume after it, otherwise keep
    the code point and move on by one.  [skip] counts the code points of the
    current match still to drop. *)
Fixpoint re_sub_from (skip : nat) (s : str) : str :=
  match s with
  | [] => []
  | c :: s' =>
    match skip with
    | S k => re_sub_from k s'
    | O =>
      match match_at (c :: s') with
      | Some n => re_sub_from (Nat.pred n) s'
      | None => c :: re_sub_from 0 s'
      end
    end
  end.

Definition re_sub_think (s : str) : str := re_sub_from 0 s.

(** [str.isspace] for one code point (CPython's [_PyUnicode_IsWhitespace]). *)
Definition isspace (c : N) : bool :=
  ((9 <=? c) && (c <=? 13) || (28 <=? c) && (c <=? 32)
   || (c =? 133) || (c =? 160) || (c =? 5760)
   || (8192 <=? c) && (c <=? 8202)
   || (c =? 8232) || (c =? 8233) || (c =? 8239) || (c =? 8287)
   || (c =? 12288))%N.

Fixpoint lstrip (s : str) : str :=
  match s with
  | [] => []
  | c :: s' => if isspace c then lstrip s' else s
  end.

Fixpoint rstrip (s : str) : str :=
  match s with
  | [] => []
  | c :: s' =>
    match rstrip s' with
    | [] => if isspace c then [] else [c]
    | r => c :: r
    end
  end.

(** [s.strip()] *)
Definition strip (s : str) : str := rstrip (lstrip s).

Definition remove_think_content (content : str) : str :=
  strip (re_sub_think content).

(** Nothing for [lstrip] to remove. *)
Definition trimmed_left (s : str) : Prop :=
  match s with
  | [] => True
  | c :: _ => isspace c = false
  end.

(** Some suffix of [s] starts with a complete [<think>...</think>] block. *)
Fixpoint has_think_block (s : str) : bool :=
  match match_at s with
  | Some _ => true
  | None => match s with
            | [] => false
            | _ :: s' => has_think_block s'
            end
  end.

(** [s.replace(old, new)] for a non-empty [old]: leftmost non-overlapping
    occurrences, [skip] counting what is left of the occurrence being
    replaced. *)
Fixpoint replace_from (old new : str) (skip : nat) (s : str) : str :=
  match s with
  | [] => []
  | c :: s' =>
    match skip with
    | S k => replace_from old new k s'
    | O =>
      if startswith (c :: s') old
      then new ++ replace_from old new (Nat.pred (List.length old)) s'
      else c :: replace_from old new 0 s'
    end
  end.

Definition replace (old new s : str) : str := replace_from old new 0 s.

(* ================================================================== *)
(** * Effects: exceptions, log, reply sink, model calls, sleeping *)
(* ================================================================== *)

(** What a [raise] carries.  Instances of [Exception]: the [TypeError]s
    the handler itself can provoke, and whatever else a collaborator raises.
    Instances of [BaseException] outside [Exception] ([SystemExit],
    [KeyboardInterrupt], [GeneratorExit]): a collaborator can raise them
    too, and [except Exception] does not catch them. *)
Inductive exn : Type :=
| TypeError (msg : str)
| OtherError (cls msg : str)
| BaseOnly (cls msg : str).

(** [isinstance(e, Exception)] *)
Definition is_Exception (e : exn) : bool :=
  match e with
  | TypeError _ | OtherError _ _ => true
  | BaseOnly _ _ => false
  end.

(** [str(e)] *)
Definition exn_str (e : exn) : str :=
  match e with
  | TypeError msg => msg
  | OtherError _ msg => msg
  | BaseOnly _ msg => msg
  end.

Inductive level : Type := INFO | ERROR.

(** The dict handed to [reply.add_reply]. *)
Record reply : Type := {
  title : option str;
  content : str;
  target : str;
  msg_type : str
}.

(** One entry of the list [messages] sent to the model. *)
Record message : Type := { role : str; msg_content : str }.

(** One entry of [changes]. *)
Record change : Type := {
  new_path : str;
  new_file : bool;
  diff : str
}.

(** The fields of the webhook payload the handler reads. *)
Record hook_info : Type := {
  project_name : str;
  project_id : Z;
  source_branch : str;
  target_branch : str;
  user_name : str;
  url : str;
  iid : Z
}.

Definition nl : str := [10%N].

Section Engine.

(** State of the model object, kept between its calls. *)
Variable MS : Type.

(** [utils.gitlab_parser.filter_diff_content], a helper of the project
    that the handler imports. *)
Variable filter_diff_content : str -> exn + str.

(** [config.GPT_MESSAGE], the system prompt. *)
Variable GPT_MESSAGE : str.

(** Python's [repr] of the list of message dicts, as interpolated in a
    log line. *)
Variable repr_messages : list message -> str.

(** What [get_info] of the fetcher returns; the handler only passes it on. *)
Variable MergeInfo : Type.

(** Everything a handler run can change: the model's state, the log, the
    reply sink, the payloads passed to [model.generate_text] and the
    delays slept by the retry decorator (milliseconds). *)
Record world : Type := {
  model_state : MS;
  logged : list (level * str);
  replies : list reply;
  generate_calls : list (list message);
  sleeps : list Z
}.

(** A computation either raises or returns, and changes the world. *)
Definition M (A : Type) : Type := world -> (exn + A) * world.

Definition ret {A} (a : A) : M A := fun w => (inr a, w).

Definition raise {A} (e : exn) : M A := fun w => (inl e, w).

Definition bind {A B} (m : M A) (k : A -> M B) : M B :=
  fun w => match m w with
           | (inl e, w1) => (inl e, w1)
           | (inr a, w1) => k a w1
           end.

Notation "x <- m ;; k" := (bind m (fun x => k))
  (at level 61, m at next level, right associativity).
Notation "m ;; k" := (bind m (fun _ => k))
  (at level 61, right associativity).

(** [try: body  except Exception as e: handler(e)]: what is not an
    instance of [Exception] passes through. *)
Definition try_except {A} (body : M A) (handler : exn -> M A) : M A :=
  fun w => match body w with
           | (inl e, w1) =>
             if is_Exception e then handler e w1 else (inl e, w1)
           | (inr a, w1) => (inr a, w1)
           end.

Definition lift {A} (r : exn + A) : M A := fun w => (r, w).

Definition log_write (lv : level) (msg : str) : M unit :=
  fun w => (inr tt,
            {| model_state := model_state w;
               logged := logged w ++ [(lv, msg)];
               replies := replies w;
               generate_calls := generate_calls w;
               sleeps := sleeps w |}).

Definition log_info : str -> M unit := log_write INFO.
Definition log_error : str -> M unit := log_write ERROR.

(** [reply.add_reply(r)]: enqueue in the sink. *)
Definition add_reply (r : reply) : M unit :=
  fun w => (inr tt,
            {| model_state := model_state w;
               logged := logged w;
               replies := replies w ++ [r];
               generate_calls := generate_calls w;
               sleeps := sleeps w |}).

(** [time.sleep(ms / 1000.0)] *)
Definition sleep_ms (ms : Z) : M unit :=
  fun w => (inr tt,
            {| model_state := model_state w;
               logged := logged w;
               replies := replies w;
               generate_calls := generate_calls w;
               sleeps := sleeps w ++ [ms] |}).

(** ** The model object *)

(** The three methods the worker calls; each may raise and may change the
    model's state. *)
Record LLM : Type := {
  generate_text : list message -> MS -> (exn + unit) * MS;
  get_respond_content : MS -> (exn + str) * MS;
  get_respond_tokens : MS -> (exn + Z) * MS
}.

Definition on_model {A} (f : MS -> (exn + A) * MS) : M A :=
  fun w => let '(r, s) := f (model_state w) in
           (r, {| model_state := s;
                  logged := logged w;
                  replies := replies w;
                  generate_calls := generate_calls w;
                  sleeps := sleeps w |}).

Definition model_generate_text (model : LLM) (messages : list message)
  : M unit :=
  fun w =>
    on_model (generate_text model messages)
             {| model_state := model_state w;
                logged := logged w;
                replies := replies w;
                generate_calls := generate_calls w ++ [messages];
                sleeps := sleeps w |}.

Definition model_get_respond_content (model : LLM) : M str :=
  on_model (get_respond_content model).

Definition model_get_respond_tokens (model : LLM) : M Z :=
  on_model (get_respond_tokens model).

(** ** The [retrying] decorator *)

(** [@retry(stop_max_attempt_number=n, wait_fixed=ms)] of the [retrying]
    package: call the function; if it raises anything (the package catches
    with a bare [except:], so [BaseException]s too) and attempts remain,
    sleep [ms] and call again; after the last attempt the exception is
    raised to the caller.  A call that returns is never repeated. *)
Fixpoint retry_call {A} (attempts_left : nat) (wait_fixed : Z) (fn : M A)
  : M A :=
  fun w =>
    match fn w with
    | (inr a, w1) => (inr a, w1)
    | (inl e, w1) =>
      match attempts_left with
      | O => (inl e, w1)
      | S k =>
        match sleep_ms wait_fixed w1 with
        | (_, w2) => retry_call k wait_fixed fn w2
        end
      end
    end.

Definition retry {A} (stop_max_attempt_number : nat) (wait_fixed : Z)
           (fn : M A) : M A :=
  retry_call (stop_max_attempt_number - 1) wait_fixed fn.

(** ** The per-file worker ([generate_review_note]) *)

(** The body of the [try] block. *)
Definition generate_review_note_body (c : change) (model : LLM) : M str :=
  log_info (nl ++ py "📝 开始审查文件") ;;
  log_info (py "
        文件路径: " ++ new_path c ++ py "
        变更类型: " ++ (if new_file c then py "新文件" else py "修改") ++ py "
        ") ;;
  content <- lift (filter_diff_content (diff c)) ;;
  log_info (py "处理文件：" ++ new_path c) ;;
  let messages :=
    [ {| role := py "system"; msg_content := GPT_MESSAGE |};
      {| role := py "user";
         msg_content := py "请review这部分代码变更" ++ content |} ] in
  log_info (nl ++ py "🤖 发送给模型的消息:") ;;
  log_info (py "发送给gpt 内容如下：" ++ repr_messages messages) ;;
  model_generate_text model messages ;;
  let new_path := new_path c in
  log_info (py "对 " ++ new_path ++ py " review中...") ;;
  raw <- model_get_respond_content model ;;
  let response_content := replace (nl ++ nl) nl raw in
  let response_content := remove_think_content response_content in
  log_info (py "模型返回内容：" ++ nl ++ response_content) ;;
  total_tokens <- model_get_respond_tokens model ;;
  let review_note := py "# 📚`" ++ new_path ++ py "`" ++ nl ++ nl in
  let review_note :=
    review_note ++ py "(" ++ str_of_Z total_tokens ++ py " tokens) "
                ++ py "AI review 意见如下:" ++ nl ++ nl in
  let review_note :=
    review_note ++ response_content
                ++ nl ++ nl ++ py "---" ++ nl ++ nl ++ py "---" ++ nl ++ nl in
  log_info (py "对 " ++ new_path ++ py " review结束") ;;
  ret review_note.

(** The function without its decorator: the [except Exception] clause
    logs and falls off the end of the function, which returns [None]. *)
Definition generate_review_note_undecorated (c : change) (model : LLM)
  : M (option str) :=
  try_except
    (note <- generate_review_note_body c model ;; ret (Some note))
    (fun e => log_error (py "GPT error:" ++ exn_str e) ;; ret None).

Definition generate_review_note (c : change) (model : LLM)
  : M (option str) :=
  retry 3 60000 (generate_review_note_undecorated c model).

(** ** The dispatcher ([chat_review]) *)

(** [sep.join(items)] where an item may be [None]: the first item that is
    not a [str] raises. *)
Fixpoint join_items (index : nat) (items : list (option str))
  : exn + list str :=
  match items with
  | [] => inr []
  | None :: _ =>
    inl (TypeError (py "sequence item " ++ str_of_Z (Z.of_nat index)
                       ++ py ": expected str instance, NoneType found"))
  | Some s :: rest =>
    match join_items (S index) rest with
    | inl e => inl e
    | inr ss => inr (s :: ss)
    end
  end.

Definition str_join (sep : str) (items : list (option str)) : exn + str :=
  match join_items 0 items with
  | inl e => inl e
  | inr ss => inr (join sep ss)
  end.

(** The task submitted to the pool: the call of [generate_review] and the
    append under [result_lock], taken as one move.  An exception of
    [generate_review] (the pool catches [BaseException]) stays in the
    task's future, which nobody reads: nothing is appended and nothing is
    raised. *)
Definition process_change (generate_review : change -> M (option str))
           (c : change) (review_results : list (option str))
  : M (list (option str)) :=
  fun w => match generate_review c w with
           | (inl _, w1) => (inr review_results, w1)
           | (inr result, w1) => (inr (review_results ++ [result]), w1)
           end.

(** The pool runs the submitted tasks while the loop over [changes] is
    still submitting, and a task appends its result when it completes, in
    whatever order that happens.  A schedule lists who moves next: [0] is
    the loop, which looks at its next change; [S k] is the task at
    position [k] among those submitted and not yet run.  A move that names
    nobody is skipped. *)
Definition schedule : Type := list nat.

(** One iteration of [for change in changes]: submit, or log the skip. *)
Definition loop_step (c : change) (waiting : list change)
  : M (list change) :=
  if is_review_file Config.EXCLUDE_FILE_TYPES Config.IGNORE_FILE_TYPES
                    (new_path c)
  then ret (waiting ++ [c])
  else log_info (new_path c ++ py " 非目标检测文件！") ;; ret waiting.

(** The task at position [k] of the waiting ones, and the others. *)
Fixpoint take_task (k : nat) (waiting : list change) {struct waiting}
  : option (change * list change) :=
  match waiting with
  | [] => None
  | c :: rest =>
    match k with
    | O => Some (c, rest)
    | S k' =>
      match take_task k' rest with
      | Some (d, rest') => Some (d, c :: rest')
      | None => None
      end
    end
  end.

(** The rest of the loop, once the schedule is used up. *)
Fixpoint finish_loop (todo waiting : list change) : M (list change) :=
  match todo with
  | [] => ret waiting
  | c :: rest =>
    waiting' <- loop_step c waiting ;;
    finish_loop rest waiting'
  end.

(** [concurrent.futures.wait(futures)] and the end of the [with] block:
    the tasks still waiting run, here in the order of submission. *)
Fixpoint run_waiting (generate_review : change -> M (option str))
         (waiting : list change) (review_results : list (option str))
  : M (list (option str)) :=
  match waiting with
  | [] => ret review_results
  | c :: rest =>
    results <- process_change generate_review c review_results ;;
    run_waiting generate_review rest results
  end.

(** The [with ThreadPoolExecutor()] block under a schedule: [todo] are the
    changes the loop has not looked at yet, [waiting] the tasks submitted
    and not yet run. *)
Fixpoint run_pool (generate_review : change -> M (option str))
         (sched : schedule) (todo waiting : list change)
         (review_results : list (option str))
  : M (list (option str)) :=
  match sched with
  | [] =>
    waiting' <- finish_loop todo waiting ;;
    run_waiting generate_review waiting' review_results
  | O :: sched' =>
    match todo with
    | [] => run_pool generate_review sched' [] waiting review_results
    | c :: rest =>
      waiting' <- loop_step c waiting ;;
      run_pool generate_review sched' rest waiting' review_results
    end
  | S k :: sched' =>
    match take_task k waiting with
    | None => run_pool generate_review sched' todo waiting review_results
    | Some (c, waiting') =>
      results <- process_change generate_review c review_results ;;
      run_pool generate_review sched' todo waiting' results
    end
  end.

Definition chat_review (changes : list change)
           (generate_review : change -> M (option str)) (sched : schedule)
  : M str :=
  log_info (py "开始code review") ;;
  review_results <- run_pool generate_review sched changes [] [] ;;
  match review_results with
  | [] => ret []
  | _ => lift (str_join (nl ++ nl) review_results)
  end.

(** ** The handler ([MainReviewHandle]) *)

(** [changes] as the fetcher hands it over: a list, or [None]. *)
Definition truthy (changes : option (list change)) : bool :=
  match changes with
  | Some (_ :: _) => true
  | _ => false
  end.

(** [len(changes)] *)
Definition len (changes : option (list change)) : M nat :=
  match changes with
  | Some l => ret (List.length l)
  | None => raise (TypeError (py "object of type 'NoneType' has no len()"))
  end.

(** [for change in changes] / the comprehension over [changes] *)
Definition iter (changes : option (list change)) : M (list change) :=
  match changes with
  | Some l => ret l
  | None => raise (TypeError (py "'NoneType' object is not iterable"))
  end.

Definition str_of_nat (n : nat) : str := str_of_Z (Z.of_nat n).

Definition mr_details (hook : hook_info) : str :=
  py "- **MR URL**: [查看合并请求](" ++ url hook ++ py ")
- **源分支**: `" ++ source_branch hook ++ py "`
- **目标分支**: `" ++ target_branch hook ++ py "`
".

(** The comment carrying the aggregated review. *)
Definition review_comment (review_info : str) : reply :=
  {| title := None;
     content := review_info;
     target := py "all";
     msg_type := py "MAIN, SINGLE" |}.

(** The DingTalk notice sent after a review. *)
Definition success_notice (hook : hook_info) (n : nat) : reply :=
  {| title := Some (py "__MAIN_REVIEW__");
     content :=
       py "## 项目名称: **" ++ project_name hook ++ py "**

### 合并请求详情
" ++ mr_details hook ++ py "
### 变更详情
- **修改文件个数**: `" ++ str_of_nat n ++ py "`
- **Code Review 状态**: ✅
";
     target := py "dingtalk";
     msg_type := py "MAIN, SINGLE" |}.

(** The DingTalk notice sent when the review text is empty. *)
Definition pass_notice (hook : hook_info) (n : nat) : reply :=
  {| title := Some (py "__MAIN_REVIEW__");
     content :=
       py "## 项目名称: **" ++ project_name hook ++ py "**

### 合并请求详情
" ++ mr_details hook ++ py "
### 变更详情
- **修改文件个数**: `" ++ str_of_nat n ++ py "`
- **备注**: 存在已经提交的 MR，所有文件已进行 MR
- **Code Review 状态**: pass ✅
";
     target := py "dingtalk";
     msg_type := py "MAIN, SINGLE" |}.

(** The DingTalk notice of the branch for more than [MAX_FILES] files. *)
Definition over_limit_notice (hook : hook_info) (n : nat) : reply :=
  {| title := Some (py "__MAIN_REVIEW__");
     content :=
       py "## 项目名称: **" ++ project_name hook ++ py "**

### 备注
修改 `" ++ str_of_nat n ++ py "` 个文件 > 50 个文件，不进行 Code Review ⚠️

### 合并请求详情
" ++ mr_details hook;
     target := py "dingtalk";
     msg_type := py "MAIN, SINGLE" |}.

Definition review_files_of (cs : list change) : list change :=
  filter (fun c => is_review_file Config.EXCLUDE_FILE_TYPES
                                  Config.IGNORE_FILE_TYPES (new_path c)) cs.

(** The log entry written once the three guards are passed. *)
Definition checks_passed_log (n reviewable : nat) : str :=
  py "
✅ 审查条件检查通过:
- 文件总数: " ++ str_of_nat n ++ py " <= " ++ str_of_nat Config.MAX_FILES ++ py "
- 需要审查的文件数: " ++ str_of_nat reviewable ++ py "
".

(** The log entry written right before [chat_review] is called. *)
Definition review_begins_log (n : nat) : str :=
  py "开始审查，共 " ++ str_of_nat n ++ py " 个文件".

Definition default_handle (changes : option (list change))
           (merge_info : MergeInfo) (hook : hook_info) (model : LLM)
           (sched : schedule) : M unit :=
  log_info (py "处理状态检查:") ;;
  if negb (truthy changes) then
    log_info (py "❌ 没有检测到文件变更")                       (* return *)
  else
    n <- len changes ;;
    if Config.MAX_FILES <? n then
      log_info (py "❌ 文件数量 (" ++ str_of_nat n ++ py ") 超过最大限制 ("
                   ++ str_of_nat Config.MAX_FILES ++ py ")")      (* return *)
    else
      cs <- iter changes ;;
      let review_files := review_files_of cs in
      match review_files with
      | [] => log_info (py "❌ 没有需要审查的文件类型")           (* return *)
      | _ :: _ =>
        log_info (checks_passed_log n (List.length review_files)) ;;
        if truthy changes && (n <=? Config.MAX_FILES) then
          log_info (review_begins_log n) ;;
          review_info <-
            chat_review cs (fun c => generate_review_note c model) sched ;;
          match review_info with
          | _ :: _ =>
            log_info (py "代码审查完成，开始发送评论") ;;
            add_reply (review_comment review_info) ;;
            log_info (py "评论发送完成") ;;
            add_reply (success_notice hook n)
          | [] =>
            add_reply (pass_notice hook n)
          end
        else if truthy changes && (Config.MAX_FILES <? n) then
          add_reply (over_limit_notice hook n)
        else
          log_error (py "获取merge_request信息失败，project_id: "
                        ++ str_of_Z (project_id hook) ++ py " | merge_iid: "
                        ++ str_of_Z (iid hook))
      end.

(** [gitlabMergeRequestFetcher]: what its two calls produce. *)
Record Fetcher : Type := {
  get_changes : exn + option (list change);
  get_info : exn + MergeInfo
}.

Fixpoint for_each {A} (xs : list A) (body : A -> M unit) : M unit :=
  match xs with
  | [] => ret tt
  | x :: rest => body x ;; for_each rest body
  end.

Definition merge_handle (fetcher : Fetcher) (hook : hook_info)
           (model : LLM) (sched : schedule) : M unit :=
  log_info (py "开始处理MR，项目：" ++ project_name hook
               ++ py ", 源分支：" ++ source_branch hook
               ++ py ", 目标分支：" ++ target_branch hook) ;;
  changes <- lift (get_changes fetcher) ;;
  n <- len changes ;;
  log_info (py "检测到 " ++ str_of_nat n ++ py " 个文件变更") ;;
  total <- (if truthy changes then len changes else ret 0) ;;
  log_info (py "
变更文件信息:
- 文件总数: " ++ str_of_nat total ++ py "
- 文件列表:") ;;
  (if truthy changes then
     cs <- iter changes ;;
     for_each cs (fun c =>
       log_info (py "
    - 文件: " ++ new_path c ++ py "
    - 类型: " ++ (if any_endswith (new_path c) Config.EXCLUDE_FILE_TYPES
                then py "需要审查" else py "不需要审查") ++ py "
    - 状态: " ++ (if any_endswith (new_path c) Config.IGNORE_FILE_TYPES
                then py "忽略" else py "正常") ++ py "
    "))
   else ret tt) ;;
  merge_info <- lift (get_info fetcher) ;;
  default_handle changes merge_info hook model sched.

(** ** Reading a run *)

(** The world in which [default_handle] calls [chat_review] on a change list
    [cs] that passed its guards: the world it started in, three log entries
    later. *)
Definition dispatch_start (cs : list change) (w : world) : world :=
  snd (log_info (review_begins_log (List.length cs))
         (snd (log_info (checks_passed_log
                           (List.length cs)
                           (List.length (review_files_of cs)))
                  (snd (log_info (py "处理状态检查:") w))))).

(** The replies a run added to the sink. *)
Definition new_replies (before after : world) : list reply :=
  skipn (List.length (replies before)) (replies after).

(** A notice for the operations channel (DingTalk), as opposed to the
    review comment (target [all]). *)
Definition is_ops_notice (r : reply) : bool := str_eqb (target r) (py "dingtalk").
Definition is_review_comment (r : reply) : bool := str_eqb (target r) (py "all").

Definition count_ops (rs : list reply) : nat :=
  List.length (filter is_ops_notice rs).
Definition count_comments (rs : list reply) : nat :=
  List.length (filter is_review_comment rs).

(** [w'] is [w] after at most [k] more payloads passed to
    [model.generate_text] and at most [naps] more sleeps, with the sink
    as it was. *)
Definition within (k naps : nat) (w w' : world) : Prop :=
  replies w' = replies w
  /\ (exists slept, sleeps w' = sleeps w ++ slept
                    /\ List.length slept <= naps)
  /\ exists sent, generate_calls w' = generate_calls w ++ sent
                  /\ List.length sent <= k.

(** A computation that leaves the sink alone, sleeps at most [naps] times
    and passes at most [k] payloads to [model.generate_text]. *)
Definition quiet (k naps : nat) {A} (m : M A) : Prop :=
  forall w, within k naps w (snd (m w)).

(** The model raises instances of [Exception] only. *)
Definition raises_only_Exception (model : LLM) : Prop :=
  (forall messages s e,
      fst (generate_text model messages s) = inl e -> is_Exception e = true)
  /\ (forall s e,
         fst (get_respond_content model s) = inl e -> is_Exception e = true)
  /\ (forall s e,
         fst (get_respond_tokens model s) = inl e -> is_Exception e = true).

(** So does [filter_diff_content]. *)
Definition filter_raises_only_Exception : Prop :=
  forall d e, filter_diff_content d = inl e -> is_Exception e = true.

End Engine.

(* ================================================================== *)
(** * The thread pool of [chat_review] under every schedule *)
(* ================================================================== *)

(** Each submitted task runs [process_change]: it calls [generate_review],
    takes [result_lock], appends to [review_results] and releases the lock.
    The append is split into reading the list and writing it back, so that a
    result could be lost if two tasks appended at once; a scheduler picks
    which task moves next. *)
Module Pool.
Section Tasks.

(** The values [generate_review] returns. *)
Variable R : Type.

Inductive task : Type :=
| Submitted                              (* not started *)
| Computed (result : R)                  (* waiting for [result_lock] *)
| Acquired (result : R)                  (* inside [with result_lock] *)
| Appending (result : R) (seen : list R) (* [append] has read the list *)
| Appended (result : R)                  (* [append] has written it *)
| Finished (result : R)                  (* lock released, task done *)
| Failed.                                (* [generate_review] raised *)






(** [concurrent.futures.wait] returns once every future is done. *)
Definition done (t : task) : bool :=
  match t with
  | Finished _ | Failed => true
  | _ => false
  end.



(** ** Auxiliary notions for the invariant *)








End Tasks.
End Pool.

(* ================================================================== *)
(** * A concrete setting to run the handler in *)
(* ================================================================== *)

Module Demo.

(** A model whose first [failures] calls of [generate_text] raise and whose
    later calls succeed; its state counts the calls made. *)
Definition flaky_model (failures : nat) : LLM nat :=
  {| generate_text := fun _ calls =>
       (if calls <? failures
        then inl (OtherError (py "ConnectionError") (py "connection reset"))
        else inr tt,
        S calls);
     get_respond_content := fun calls => (inr (py "LGTM"), calls);
     get_respond_tokens := fun calls => (inr 42%Z, calls) |}.

Definition start : world nat :=
  {| model_state := 0; logged := []; replies := [];
     generate_calls := []; sleeps := [] |}.

Definition hook : hook_info :=
  {| project_name := py "demo";
     project_id := 7;
     source_branch := py "feature";
     target_branch := py "main";
     user_name := py "dev";
     url := py "https://gitlab.example/demo/-/merge_requests/3";
     iid := 3 |}.

Definition file (path : string) : change :=
  {| new_path := py path; new_file := false; diff := py "d1" |}.

Definition keep_diff (d : str) : exn + str := inr d.

Definition prompt : str := py "review this diff".

Definition show_messages (ms : list message) : str :=
  join (py ", ") (map (fun m => role m ++ py ": " ++ msg_content m) ms).

Definition worker (failures : nat) (c : change) : M nat (option str) :=
  generate_review_note keep_diff prompt show_messages c (flaky_model failures).

Definition handle (failures : nat) (sched : schedule)
           (changes : option (list change))
  : (exn + unit) * world nat :=
  default_handle keep_diff prompt show_messages changes tt hook
                 (flaky_model failures) sched start.

(** A model whose [generate_text] ends the interpreter:
    [raise SystemExit(1)]. *)
Definition exiting_model : LLM nat :=
  {| generate_text := fun _ calls =>
       (inl (BaseOnly (py "SystemExit") (py "1")), S calls);
     get_respond_content := fun calls => (inr (py "LGTM"), calls);
     get_respond_tokens := fun calls => (inr 42%Z, calls) |}.

End Demo.

(* ================================================================== *)
(** * Notions used to state further properties *)
(* ================================================================== *)

(** Nothing for [rstrip] to remove. *)
Definition trimmed_right (s : str) : Prop :=
  match rev s with
  | [] => True
  | c :: _ => isspace c = false
  end.

(** Index of the first item that is [None]. *)
Fixpoint first_none (items : list (option str)) : option nat :=
  match items with
  | [] => None
  | None :: _ => Some 0
  | Some _ :: rest => option_map S (first_none rest)
  end.

(** The items that are strings. *)
Fixpoint strings_of (items : list (option str)) : list str :=
  match items with
  | [] => []
  | None :: rest => strings_of rest
  | Some s :: rest => s :: strings_of rest
  end.

(** [m] leaves everything but the log alone and writes [n] log entries. *)
Definition only_logs {MS A} (n : nat) (m : M MS A) : Prop :=
  forall w, let w' := snd (m w) in
            model_state w' = model_state w
            /\ replies w' = replies w
            /\ generate_calls w' = generate_calls w
            /\ sleeps w' = sleeps w
            /\ List.length (logged w') = List.length (logged w) + n.

(** The log entry [chat_review] writes for a file it skips. *)
Definition skipped_log (c : change) : str :=
  new_path c ++ py " 非目标检测文件！".

(** Whatever [m] returns satisfies [P]. *)
Definition returns {MS A} (P : A -> Prop) (m : M MS A) : Prop :=
  forall w a w', m w = (inr a, w') -> P a.

(** The note starts with the heading that names the file. *)
Definition has_heading (c : change) (note : str) : bool :=
  startswith note (py "# 📚`" ++ new_path c ++ py "`").

(** What the worker may hand over for the file [c]: a note under the
    heading of [c], or [None]; and [None] when the diff filter raises. *)
Definition result_ok (filter_diff_content : str -> exn + str) (c : change)
           (r : option str) : Prop :=
  match r with
  | Some note => has_heading c note = true
                 /\ exists content, filter_diff_content (diff c) = inr content
  | None => True
  end.

(** The two messages the worker sends for a filtered diff. *)
Definition payload (GPT_MESSAGE content : str) : list message :=
  [ {| role := py "system"; msg_content := GPT_MESSAGE |};
    {| role := py "user";
       msg_content := py "请review这部分代码变更" ++ content |} ].

(** [generate_review] can hand over [r] for the file [c]. *)
Definition hands_over {MS} (gen : change -> M MS (option str)) (c : change)
           (r : option str) : Prop :=
  exists w0 w1, gen c w0 = (inr r, w1).

(** [generate_review] can raise on the file [c]. *)
Definition can_raise {MS} (gen : change -> M MS (option str)) (c : change)
  : Prop :=
  exists w0 e w1, gen c w0 = (inl e, w1).

(** Every call of [model.generate_text] raises something that is not an
    instance of [Exception]. *)
Definition always_interrupted {MS} (model : LLM MS) : Prop :=
  forall messages s,
    exists e, fst (generate_text model messages s) = inl e
              /\ is_Exception e = false.

(** Number of files of [changes] that pass the filter. *)
Definition reviewable_count (changes : option (list change)) : nat :=
  match changes with
  | Some cs => List.length (review_files_of cs)
  | None => 0
  end.

(** A diff filter that refuses binary diffs, and a change it refuses. *)
Module Faulty.

Definition reject_binary (d : str) : exn + str :=
  if startswith d (py "Binary files")
  then inl (OtherError (py "ValueError") (py "binary diff"))
  else inr d.

Definition image : change :=
  {| new_path := py "logo.py"; new_file := true;
     diff := py "Binary files /dev/null and b/logo.py differ" |}.

Definition handle (sched : schedule) (changes : option (list change))
  : (exn + unit) * world nat :=
  default_handle reject_binary Demo.prompt Demo.show_messages changes tt
                 Demo.hook (Demo.flaky_model 0) sched Demo.start.

End Faulty.

(** [w'] is [w] with [n] more log entries. *)
Definition logged_more {MS} (n : nat) (w w' : world MS) : Prop :=
  model_state w' = model_state w
  /\ replies w' = replies w
  /\ generate_calls w' = generate_calls w
  /\ sleeps w' = sleeps w
  /\ List.length (logged w') = List.length (logged w) + n.

(* ================================================================== *)
(** * Facts: the file filter *)
(* ================================================================== *)

Lemma str_eqb_eq (a b : str) : str_eqb a b = true <-> a = b.
Proof.
  revert b; induction a as [|x a IH]; intros [|y b]; simpl; split;
    try congruence; try reflexivity.
  - intros H. apply andb_true_iff in H as [Hx Hab].
    apply N.eqb_eq in Hx. apply IH in Hab. congruence.
  - intros H. injection H as -> ->.
    rewrite N.eqb_refl. simpl. apply IH. reflexivity.
Qed.

Lemma str_eqb_refl (a : str) : str_eqb a a = true.
Proof. apply str_eqb_eq. reflexivity. Qed.

Lemma endswith_has_suffix (s t : str) : endswith s t = true <-> has_suffix s t.
Proof.
  unfold endswith, has_suffix. split.
  - intros H. apply andb_true_iff in H as [_ H]. apply str_eqb_eq in H.
    exists (firstn (List.length s - List.length t) s).
    rewrite <- (firstn_skipn (List.length s - List.length t) s) at 1.
    f_equal. assumption.
  - intros [pre ->]. rewrite length_app.
    apply andb_true_iff. split.
    + apply Nat.leb_le. lia.
    + replace (List.length pre + List.length t - List.length t)
        with (List.length pre + 0) by lia.
      rewrite skipn_app, Nat.add_0_r, skipn_all.
      replace (List.length pre - List.length pre) with 0 by lia.
      simpl. apply str_eqb_refl.
Qed.

Lemma any_endswith_spec (p : str) (exts : list str) :
  any_endswith p exts = true <-> exists e, In e exts /\ has_suffix p e.
Proof.
  unfold any_endswith. rewrite existsb_exists.
  split; intros [e [Hin H]]; exists e; split; auto;
    apply endswith_has_suffix; assumption.
Qed.

(** C6: for every path [p] and extension lists [inc] and [ign], the filter
    that [chat_review] and [default_handle] apply holds iff [p] ends with
    some entry of [inc] and with no entry of [ign]; it never holds for a
    path that ends with an entry of [ign] (ignore overrides include); the
    match is on the exact suffix: case matters, nothing is trimmed and the
    path is not normalised. *)
Theorem file_filter_iff_suffix_policy :
  forall (inc ign : list str) (p : str),
    (is_review_file inc ign p = true <-> spec_is_reviewable inc ign p)
    /\ is_review_file inc ign p && any_endswith p ign = false
    /\ is_review_file [py ".go"] [py "mod.go"] (py "src/mod.go") = false
    /\ is_review_file [py ".py"] [] (py "A.PY") = false
    /\ is_review_file [py ".py"] [] (py "a.py ") = false
    /\ is_review_file [py ".py"] [] (py "./a.py") = true.
Proof.
  intros inc ign p. split; [|split; [|repeat split]].
  - unfold is_review_file, spec_is_reviewable.
    rewrite andb_true_iff, negb_true_iff, <- not_true_iff_false.
    rewrite !any_endswith_spec. reflexivity.
  - unfold is_review_file.
    destruct (any_endswith p inc), (any_endswith p ign); reflexivity.
Qed.

(* ================================================================== *)
(** * Facts: the reasoning stripper *)
(* ================================================================== *)

(** ** Whitespace trimming *)

Lemma lstrip_trimmed (s : str) : trimmed_left (lstrip s).
Proof.
  induction s as [|c s IH]; simpl; [exact I|].
  destruct (isspace c) eqn:E; [exact IH | exact E].
Qed.

Lemma lstrip_fixed (s : str) : trimmed_left s -> lstrip s = s.
Proof. destruct s as [|c s]; simpl; [reflexivity|]. intros ->. reflexivity. Qed.

Lemma rstrip_trimmed (s : str) : trimmed_left s -> trimmed_left (rstrip s).
Proof.
  destruct s as [|c s]; simpl; [trivial|]. intros E.
  destruct (rstrip s); rewrite ?E; exact E.
Qed.

Lemma rstrip_idem (s : str) : rstrip (rstrip s) = rstrip s.
Proof.
  induction s as [|c s IH]; simpl; [reflexivity|].
  destruct (rstrip s) as [|d r] eqn:E.
  - destruct (isspace c) eqn:Ec; simpl; rewrite ?Ec; reflexivity.
  - change (rstrip (c :: d :: r)) with
      (match rstrip (d :: r) with
       | [] => if isspace c then [] else [c]
       | x => c :: x
       end).
    rewrite IH. reflexivity.
Qed.

Lemma strip_idem (s : str) : strip (strip s) = strip s.
Proof.
  unfold strip.
  rewrite (lstrip_fixed (rstrip (lstrip s))).
  - apply rstrip_idem.
  - apply rstrip_trimmed, lstrip_trimmed.
Qed.

Lemma lstrip_length (s : str) : List.length (lstrip s) <= List.length s.
Proof.
  induction s as [|c s IH]; simpl; [lia|].
  destruct (isspace c); simpl; lia.
Qed.

Lemma rstrip_length (s : str) : List.length (rstrip s) <= List.length s.
Proof.
  induction s as [|c s IH]; simpl; [lia|].
  destruct (rstrip s); [destruct (isspace c)|]; simpl in *; lia.
Qed.

Lemma strip_length (s : str) : List.length (strip s) <= List.length s.
Proof.
  unfold strip. pose proof (rstrip_length (lstrip s)).
  pose proof (lstrip_length s). lia.
Qed.

(** ** Scanning for the tags *)

Lemma startswith_length (s t : str) :
  startswith s t = true -> List.length t <= List.length s.
Proof.
  revert s; induction t as [|y t IH]; intros s; simpl; [lia|].
  destruct s as [|x s]; [discriminate|].
  intros H. apply andb_true_iff in H as [_ H]. apply IH in H. simpl. lia.
Qed.

Lemma find_nil (needle : str) :
  find needle [] = if startswith [] needle then Some 0 else None.
Proof. reflexivity. Qed.

Lemma find_cons (needle : str) (c : N) (s : str) :
  find needle (c :: s) =
  if startswith (c :: s) needle then Some 0 else option_map S (find needle s).
Proof. reflexivity. Qed.

Lemma find_bound (needle s : str) (k : nat) :
  find needle s = Some k -> k + List.length needle <= List.length s.
Proof.
  revert k; induction s as [|c s IH]; intros k.
  - rewrite find_nil. destruct (startswith [] needle) eqn:E; [|discriminate].
    intros [= <-]. apply startswith_length in E. simpl in *. lia.
  - rewrite find_cons. destruct (startswith (c :: s) needle) eqn:E.
    + intros [= <-]. apply startswith_length in E. simpl in *. lia.
    + destruct (find needle s) as [j|]; [|discriminate].
      simpl. intros [= <-]. specialize (IH j eq_refl). simpl. lia.
Qed.

Lemma find_none_tail (needle : str) (c : N) (s : str) :
  find needle (c :: s) = None -> find needle s = None.
Proof.
  rewrite find_cons. destruct (startswith (c :: s) needle); [discriminate|].
  destruct (find needle s); [discriminate | reflexivity].
Qed.

Lemma find_skipn (needle s : str) (n : nat) :
  find needle s = None -> find needle (skipn n s) = None.
Proof.
  revert s; induction n as [|n IH]; intros s; [trivial|].
  destruct s as [|c s]; [trivial|].
  simpl skipn. intros H. apply IH. exact (find_none_tail _ _ _ H).
Qed.

Lemma open_tag_length : List.length open_tag = 7.
Proof. reflexivity. Qed.

Lemma close_tag_length : List.length close_tag = 8.
Proof. reflexivity. Qed.

Lemma match_at_bounds (s : str) (n : nat) :
  match_at s = Some n -> 15 <= n <= List.length s.
Proof.
  unfold match_at. destruct (startswith s open_tag) eqn:E; [|discriminate].
  destruct (find close_tag _) as [k|] eqn:F; [|discriminate].
  intros [= <-]. apply find_bound in F. apply startswith_length in E.
  rewrite length_skipn in F.
  rewrite open_tag_length, close_tag_length in *. lia.
Qed.

Lemma match_at_needs_close (s : str) :
  find close_tag s = None -> match_at s = None.
Proof.
  intros H. unfold match_at. destruct (startswith s open_tag); [|reflexivity].
  rewrite (find_skipn _ _ _ H). reflexivity.
Qed.

Lemma no_close_no_block (s : str) :
  find close_tag s = None -> has_think_block s = false.
Proof.
  induction s as [|c s IH]; intros H.
  - reflexivity.
  - simpl. rewrite (match_at_needs_close _ H).
    apply IH. exact (find_none_tail _ _ _ H).
Qed.

(** ** The substitution *)

Lemma re_sub_from_length (s : str) :
  forall k, List.length (re_sub_from k s) <= List.length s - k.
Proof.
  induction s as [s IH] using (well_founded_induction
                                 (Wf_nat.well_founded_ltof _ (@List.length N))).
  assert (T : forall s' k, List.length s' < List.length s ->
                    List.length (re_sub_from k s') <= List.length s' - k).
  { intros s' k Hlt. apply IH. exact Hlt. }
  clear IH. intros k. destruct s as [|c s]; simpl; [lia|].
  destruct k as [|k].
  - destruct (match_at (c :: s)) as [n|] eqn:E.
    + apply match_at_bounds in E. simpl in E.
      specialize (T s (Nat.pred n)). simpl in T. lia.
    + simpl. specialize (T s 0). simpl in T. lia.
  - specialize (T s k). simpl in T. lia.
Qed.

Lemma no_block_fixed (s : str) :
  has_think_block s = false -> re_sub_think s = s.
Proof.
  unfold re_sub_think. induction s as [|c s IH]; [reflexivity|].
  intros H. simpl in H. simpl re_sub_from.
  destruct (match_at (c :: s)); [discriminate|].
  rewrite (IH H). reflexivity.
Qed.

Lemma block_shrinks (s : str) :
  has_think_block s = true ->
  List.length (re_sub_think s) < List.length s.
Proof.
  unfold re_sub_think. induction s as [|c s IH].
  - simpl. unfold match_at. simpl. discriminate.
  - intros H. simpl in H. simpl re_sub_from.
    destruct (match_at (c :: s)) as [n|] eqn:E.
    + apply match_at_bounds in E. simpl in E.
      pose proof (re_sub_from_length s (Nat.pred n)). simpl. lia.
    + specialize (IH H). simpl. lia.
Qed.

(** C7 (corrected): applying [remove_think_content] twice gives the same
    text as applying it once exactly when the first result contains no
    complete [<think>...</think>] block. *)
Theorem strip_twice_same_iff_no_block_left :
  forall s : str,
    remove_think_content (remove_think_content s) = remove_think_content s
    <-> has_think_block (remove_think_content s) = false.
Proof.
  intros s. split.
  - intros H. destruct (has_think_block (remove_think_content s)) eqn:E;
      [exfalso | reflexivity].
    apply block_shrinks in E.
    pose proof (strip_length (re_sub_think (remove_think_content s))) as L.
    unfold remove_think_content in H at 1. rewrite H in L. lia.
  - intros H. unfold remove_think_content at 1.
    rewrite (no_block_fixed _ H). unfold remove_think_content.
    apply strip_idem.
Qed.

(** C7, counterexample: removing the inner block of
    [<thi<think>x</think>nk>y</think>] joins [<thi] and [nk>] into a new
    open tag, so the first result [<think>y</think>] is emptied by a second
    application. *)
Lemma strip_twice_differs :
  remove_think_content
    (remove_think_content (py "<thi<think>x</think>nk>y</think>"))
  <> remove_think_content (py "<thi<think>x</think>nk>y</think>").
Proof. vm_compute. discriminate. Qed.

(** ** An open tag that is never closed *)

Lemma open_tag_eq : open_tag = [60; 116; 104; 105; 110; 107; 62]%N.
Proof. reflexivity. Qed.

Lemma close_tag_eq : close_tag = [60; 47; 116; 104; 105; 110; 107; 62]%N.
Proof. reflexivity. Qed.

Ltac split_eqb :=
  repeat match goal with
         | |- context [(?x =? ?y)%N] =>
           is_var x; destruct (x =? y)%N; simpl
         end.

(** A close tag cannot begin in a non-empty text and end inside a following
    open tag. *)
Lemma startswith_close_before_open (x : str) (rest : str) :
  x <> [] ->
  startswith (x ++ open_tag ++ rest) close_tag = startswith x close_tag.
Proof.
  rewrite open_tag_eq, close_tag_eq. intros Hx.
  destruct x as [|c0 [|c1 [|c2 [|c3 [|c4 [|c5 [|c6 [|c7 x]]]]]]]];
    [congruence|..]; simpl; split_eqb; reflexivity.
Qed.

Lemma startswith_open_before_open (x : str) (rest : str) :
  x <> [] ->
  startswith (x ++ open_tag ++ rest) open_tag = startswith x open_tag.
Proof.
  rewrite open_tag_eq. intros Hx.
  destruct x as [|c0 [|c1 [|c2 [|c3 [|c4 [|c5 [|c6 x]]]]]]];
    [congruence|..]; simpl; split_eqb; reflexivity.
Qed.

Lemma find_close_in_open (rest : str) :
  find close_tag rest = None -> find close_tag (open_tag ++ rest) = None.
Proof.
  intros H. rewrite open_tag_eq, close_tag_eq in *. simpl app.
  repeat (rewrite find_cons; simpl startswith; simpl).
  rewrite H. reflexivity.
Qed.

Lemma find_close_before_open (x rest : str) :
  find close_tag rest = None ->
  find close_tag (x ++ open_tag ++ rest) = find close_tag x.
Proof.
  intros H. induction x as [|c x IH].
  - change ([] ++ open_tag ++ rest) with (open_tag ++ rest).
    rewrite (find_close_in_open _ H). reflexivity.
  - change ((c :: x) ++ open_tag ++ rest) with (c :: (x ++ open_tag ++ rest)).
    rewrite !find_cons.
    change (c :: (x ++ open_tag ++ rest)) with ((c :: x) ++ open_tag ++ rest).
    rewrite startswith_close_before_open by discriminate.
    rewrite IH. reflexivity.
Qed.

Lemma match_at_before_open (x rest : str) :
  x <> [] ->
  find close_tag rest = None ->
  match_at (x ++ open_tag ++ rest) = match_at x.
Proof.
  intros Hx H. unfold match_at.
  rewrite startswith_open_before_open by assumption.
  destruct (startswith x open_tag) eqn:E; [|reflexivity].
  apply startswith_length in E.
  rewrite skipn_app.
  replace (List.length open_tag - List.length x) with 0 by lia.
  change (skipn 0 (open_tag ++ rest)) with (open_tag ++ rest).
  rewrite find_close_before_open by assumption. reflexivity.
Qed.

Lemma re_sub_from_here (c : N) (s : str) :
  re_sub_from 0 (c :: s) =
  match match_at (c :: s) with
  | Some n => re_sub_from (Nat.pred n) s
  | None => c :: re_sub_from 0 s
  end.
Proof. reflexivity. Qed.

Lemma re_sub_from_skip (k : nat) (c : N) (s : str) :
  re_sub_from (S k) (c :: s) = re_sub_from k s.
Proof. reflexivity. Qed.

Lemma re_sub_before_open (pre rest : str) :
  find close_tag rest = None ->
  forall k, k <= List.length pre ->
    re_sub_from k (pre ++ open_tag ++ rest)
    = re_sub_from k pre ++ open_tag ++ rest.
Proof.
  intros H. induction pre as [pre IH] using
    (well_founded_induction (Wf_nat.well_founded_ltof _ (@List.length N))).
  unfold Wf_nat.ltof in IH.
  intros k Hk. destruct pre as [|c pre].
  - assert (k = 0) as -> by (simpl in Hk; lia).
    change ([] ++ open_tag ++ rest) with (open_tag ++ rest).
    apply (no_block_fixed (open_tag ++ rest)).
    apply no_close_no_block, find_close_in_open, H.
  - change ((c :: pre) ++ open_tag ++ rest)
      with (c :: (pre ++ open_tag ++ rest)).
    destruct k as [|k].
    + rewrite !re_sub_from_here.
      change (c :: (pre ++ open_tag ++ rest))
        with ((c :: pre) ++ open_tag ++ rest).
      rewrite match_at_before_open by (discriminate || assumption).
      destruct (match_at (c :: pre)) as [n|] eqn:E.
      * apply match_at_bounds in E. simpl in E.
        apply IH; simpl; lia.
      * rewrite <- app_comm_cons. f_equal. apply IH; simpl; lia.
    + rewrite !re_sub_from_skip. apply IH; simpl in *; lia.
Qed.

(** C8 (corrected): when an open tag is followed by no close tag, the tag
    and all the text after it are kept in place; complete blocks before it
    are still removed and whitespace at both ends of the result is still
    trimmed.  When no complete block precedes the tag the result is the
    content stripped of its surrounding whitespace. *)
Theorem unterminated_open_tag_kept_up_to_strip :
  forall pre rest : str,
    find close_tag rest = None ->
    remove_think_content (pre ++ open_tag ++ rest)
    = strip (re_sub_think pre ++ open_tag ++ rest)
    /\ (if has_think_block pre then True
        else remove_think_content (pre ++ open_tag ++ rest)
             = strip (pre ++ open_tag ++ rest)).
Proof.
  intros pre rest H.
  assert (E : remove_think_content (pre ++ open_tag ++ rest)
              = strip (re_sub_think pre ++ open_tag ++ rest)).
  { unfold remove_think_content, re_sub_think.
    rewrite re_sub_before_open by (assumption || lia). reflexivity. }
  split; [exact E|].
  destruct (has_think_block pre) eqn:B; [exact I|].
  rewrite E, (no_block_fixed _ B). reflexivity.
Qed.

(** C8 (corrected), at [a</think> <think>abc ]: only the trailing blank is
    lost. *)
Lemma unterminated_open_tag_kept_up_to_strip_witness :
  find close_tag (py "abc ") = None
  /\ remove_think_content (py "a</think> " ++ open_tag ++ py "abc ")
     = py "a</think> <think>abc".
Proof.
  split; [reflexivity|].
  rewrite (proj1 (unterminated_open_tag_kept_up_to_strip
                    (py "a</think> ") (py "abc ") eq_refl)).
  reflexivity.
Defined.

(** C8, counterexample: [<think>abc ] has an open tag and no close tag,
    and loses its trailing blank. *)
Lemma unterminated_open_tag_content_modified :
  startswith (py "<think>abc ") open_tag = true
  /\ find close_tag (py "<think>abc ") = None
  /\ remove_think_content (py "<think>abc ") <> py "<think>abc ".
Proof. repeat split. vm_compute. discriminate. Qed.

(* ================================================================== *)
(** * Facts: worker, dispatcher and handler *)
(* ================================================================== *)

Section EngineFacts.

Variable MS : Type.
Variable filter_diff_content : str -> exn + str.
Variable GPT_MESSAGE : str.
Variable repr_messages : list message -> str.
Variable MergeInfo : Type.

Abbreviation body := (generate_review_note_body filter_diff_content GPT_MESSAGE
                                            repr_messages).
Abbreviation undecorated :=
  (generate_review_note_undecorated filter_diff_content GPT_MESSAGE
                                    repr_messages).
Abbreviation worker := (generate_review_note filter_diff_content GPT_MESSAGE
                                         repr_messages).

Lemma bind_log {A} (lv : level) (msg : str) (k : unit -> M MS A) (w : world MS) :
  bind (log_write lv msg) k w = k tt (snd (log_write lv msg w)).
Proof. reflexivity. Qed.

Lemma bind_add_reply {A} (r : reply) (k : unit -> M MS A) (w : world MS) :
  bind (add_reply r) k w = k tt (snd (add_reply r w)).
Proof. reflexivity. Qed.

Lemma bind_ret {A B} (a : A) (k : A -> M MS B) (w : world MS) :
  bind (ret a) k w = k a w.
Proof. reflexivity. Qed.

(** ** Bounds on what a computation does *)

Lemma within_same (w w' : world MS) :
  replies w' = replies w -> sleeps w' = sleeps w ->
  generate_calls w' = generate_calls w -> within 0 0 w w'.
Proof.
  intros Hr Hs Hc. split; [exact Hr|].
  split; exists []; rewrite app_nil_r; auto.
Qed.

Lemma within_refl (w : world MS) : within 0 0 w w.
Proof. apply within_same; reflexivity. Qed.

Lemma within_weaken (j k s t : nat) (w w' : world MS) :
  j <= k -> s <= t -> within j s w w' -> within k t w w'.
Proof.
  intros Hjk Hst (Hr & (slept & Hs & Hn) & sent & Hc & Hl).
  split; [exact Hr|]. split.
  - exists slept. split; [exact Hs | lia].
  - exists sent. split; [exact Hc | lia].
Qed.

Lemma within_trans (j k s t : nat) (w w1 w2 : world MS) :
  within j s w w1 -> within k t w1 w2 -> within (j + k) (s + t) w w2.
Proof.
  intros (Hr & (sl & Hs & Hn) & se & Hc & Hl)
         (Hr' & (sl' & Hs' & Hn') & se' & Hc' & Hl').
  split; [congruence|]. split.
  - exists (sl ++ sl'). rewrite Hs', Hs, app_assoc, length_app.
    split; [reflexivity | lia].
  - exists (se ++ se'). rewrite Hc', Hc, app_assoc, length_app.
    split; [reflexivity | lia].
Qed.

Lemma within_no_sleep (k : nat) (w w' : world MS) :
  within k 0 w w' -> sleeps w' = sleeps w.
Proof.
  intros (_ & (slept & Hs & Hn) & _).
  destruct slept; [|simpl in Hn; lia]. rewrite Hs, app_nil_r. reflexivity.
Qed.

Lemma within_no_call (s : nat) (w w' : world MS) :
  within 0 s w w' -> generate_calls w' = generate_calls w.
Proof.
  intros (_ & _ & sent & Hc & Hl).
  destruct sent; [|simpl in Hl; lia]. rewrite Hc, app_nil_r. reflexivity.
Qed.

Lemma quiet_weaken {A} (j k s t : nat) (m : M MS A) :
  j <= k -> s <= t -> quiet j s m -> quiet k t m.
Proof. intros Hjk Hst H w. exact (within_weaken Hjk Hst (H w)). Qed.

Lemma quiet_ret {A} (a : A) : quiet (MS:=MS) 0 0 (ret a).
Proof. intros w. apply within_refl. Qed.

Lemma quiet_raise {A} (e : exn) : quiet 0 0 (raise (MS:=MS) (A:=A) e).
Proof. intros w. apply within_refl. Qed.

Lemma quiet_lift {A} (r : exn + A) : quiet 0 0 (lift (MS:=MS) r).
Proof. intros w. apply within_refl. Qed.

Lemma quiet_log (lv : level) (msg : str) :
  quiet 0 0 (log_write (MS:=MS) lv msg).
Proof. intros w. apply within_same; reflexivity. Qed.

Lemma within_sleep (ms : Z) (w : world MS) :
  within 0 1 w (snd (sleep_ms ms w)).
Proof.
  split; [reflexivity|]. split.
  - exists [ms]. split; [reflexivity | simpl; lia].
  - exists []. rewrite app_nil_r. split; [reflexivity | simpl; lia].
Qed.

Lemma quiet_bind {A B} (j k s t : nat) (m : M MS A) (f : A -> M MS B) :
  quiet j s m -> (forall a, quiet k t (f a)) ->
  quiet (j + k) (s + t) (bind m f).
Proof.
  intros Hm Hf w. unfold bind.
  specialize (Hm w). destruct (m w) as [[e|a] w1]; cbn [snd] in *.
  - apply (within_weaken (j:=j) (s:=s)); [lia | lia | exact Hm].
  - exact (within_trans Hm (Hf a w1)).
Qed.

Lemma quiet_try {A} (j k s t : nat) (m : M MS A) (h : exn -> M MS A) :
  quiet j s m -> (forall e, quiet k t (h e)) ->
  quiet (j + k) (s + t) (try_except m h).
Proof.
  intros Hm Hh w. unfold try_except.
  specialize (Hm w). destruct (m w) as [[e|a] w1]; cbn [snd] in *.
  - destruct (is_Exception e); cbn [snd].
    + exact (within_trans Hm (Hh e w1)).
    + apply (within_weaken (j:=j) (s:=s)); [lia | lia | exact Hm].
  - apply (within_weaken (j:=j) (s:=s)); [lia | lia | exact Hm].
Qed.

Lemma quiet_on_model {A} (f : MS -> (exn + A) * MS) : quiet 0 0 (on_model f).
Proof.
  intros w. unfold on_model. destruct (f (model_state w)) as [r s].
  apply within_same; reflexivity.
Qed.

Lemma quiet_generate_text (model : LLM MS) (messages : list message) :
  quiet 1 0 (model_generate_text model messages).
Proof.
  intros w. unfold model_generate_text, on_model. simpl.
  destruct (generate_text model messages (model_state w)) as [r s]. simpl.
  split; [reflexivity|]. split.
  - exists []. rewrite app_nil_r. auto.
  - exists [messages]. auto.
Qed.

Ltac quiet_step :=
match goal with
| |- quiet 1 0 (bind (model_generate_text _ _) _) =>
  apply (@quiet_bind _ _ 1 0 0 0); [apply quiet_generate_text | intros ?]
| |- quiet 1 0 (bind _ _) => apply (@quiet_bind _ _ 0 1 0 0); [| intros ?]
| |- quiet 0 0 (bind _ _) => apply (@quiet_bind _ _ 0 0 0 0); [| intros ?]
| |- quiet 0 0 (log_write _ _) => apply quiet_log
| |- quiet 0 0 (lift _) => apply quiet_lift
| |- quiet 0 0 (on_model _) => apply quiet_on_model
| |- quiet 0 0 (ret _) => apply quiet_ret
| |- quiet 1 0 _ => apply (@quiet_weaken _ 0 1 0 0); [lia | lia |]
end.

(** ** The worker *)

Lemma quiet_body (c : change) (model : LLM MS) : quiet 1 0 (body c model).
Proof.
  unfold generate_review_note_body, log_info, log_error,
    model_get_respond_content, model_get_respond_tokens.
  repeat (cbv beta zeta; quiet_step).
Qed.

Lemma quiet_undecorated (c : change) (model : LLM MS) :
  quiet 1 0 (undecorated c model).
Proof.
  unfold generate_review_note_undecorated.
  apply (@quiet_try _ 1 0 0 0).
  - apply (@quiet_bind _ _ 1 0 0 0); [apply quiet_body|].
    intros ?. apply quiet_ret.
  - intros e. apply (@quiet_bind _ _ 0 0 0 0); [apply quiet_log|].
    intros ?. apply quiet_ret.
Qed.

Lemma retry_call_O {A} (ms : Z) (fn : M MS A) (w : world MS) :
  retry_call 0 ms fn w = fn w.
Proof. simpl. destruct (fn w) as [[e|a] w1]; reflexivity. Qed.

Lemma retry_call_S {A} (n : nat) (ms : Z) (fn : M MS A) (w : world MS) :
  retry_call (S n) ms fn w
  = match fn w with
    | (inr a, w1) => (inr a, w1)
    | (inl e, w1) => retry_call n ms fn (snd (sleep_ms ms w1))
    end.
Proof. simpl. destruct (fn w) as [[e|a] w1]; reflexivity. Qed.

(** A call that returns is not repeated. *)
Lemma retry_returns {A} (n : nat) (ms : Z) (fn : M MS A) (w w1 : world MS)
      (a : A) :
  fn w = (inr a, w1) -> retry n ms fn w = (inr a, w1).
Proof.
  intros H. unfold retry. destruct (n - 1); simpl; rewrite H; reflexivity.
Qed.

(** What the decorated call returns, an attempt returned. *)
Lemma retry_call_returned {A} (ms : Z) (fn : M MS A) (a : A) :
  forall n w w',
    retry_call n ms fn w = (inr a, w') -> exists w0, fn w0 = (inr a, w').
Proof.
  induction n as [|n IH]; intros w w'.
  - rewrite retry_call_O. eauto.
  - rewrite retry_call_S. destruct (fn w) as [[e|a'] w1] eqn:E.
    + apply IH.
    + intros [= <- <-]. eauto.
Qed.

(** What the decorated call raises, an attempt raised. *)
Lemma retry_call_raised {A} (ms : Z) (fn : M MS A) (e : exn) :
  forall n w w',
    retry_call n ms fn w = (inl e, w') -> exists w0, fn w0 = (inl e, w').
Proof.
  induction n as [|n IH]; intros w w'.
  - rewrite retry_call_O. eauto.
  - rewrite retry_call_S. destruct (fn w) as [[e'|a'] w1] eqn:E.
    + apply IH.
    + discriminate.
Qed.

Lemma quiet_retry_call {A} (k : nat) (ms : Z) (fn : M MS A) :
  quiet k 0 fn -> forall n, quiet (S n * k) n (retry_call n ms fn).
Proof.
  intros Hfn. induction n as [|n IH]; intros w.
  - rewrite retry_call_O.
    apply (within_weaken (j:=k) (s:=0)); [simpl; lia | lia | apply Hfn].
  - rewrite retry_call_S. pose proof (Hfn w) as H.
    destruct (fn w) as [[e|a] w1]; cbn [snd] in H.
    + pose proof (within_trans (within_trans H (within_sleep ms w1))
                               (IH (snd (sleep_ms ms w1)))) as T.
      apply (within_weaken (j:=k + 0 + S n * k) (s:=0 + 1 + n));
        [simpl; lia | lia | exact T].
    + apply (within_weaken (j:=k) (s:=0)); [simpl; lia | lia | exact H].
Qed.

Lemma quiet_worker (c : change) (model : LLM MS) : quiet 3 2 (worker c model).
Proof.
  exact (quiet_retry_call 60000 (quiet_undecorated c model) 2).
Qed.

Lemma undecorated_unfold (c : change) (model : LLM MS) (w : world MS) :
  undecorated c model w =
  match body c model w with
  | (inl e, w1) =>
    if is_Exception e
    then (inr None, snd (log_error (py "GPT error:" ++ exn_str e) w1))
    else (inl e, w1)
  | (inr note, w1) => (inr (Some note), w1)
  end.
Proof.
  unfold generate_review_note_undecorated, try_except, bind.
  destruct (body c model w) as [[e|note] w1]; [|reflexivity].
  destruct (is_Exception e); reflexivity.
Qed.

(** Only what [except Exception] lets through leaves the function. *)
Lemma undecorated_raised (c : change) (model : LLM MS) (w w1 : world MS)
      (e : exn) :
  undecorated c model w = (inl e, w1) -> is_Exception e = false.
Proof.
  rewrite undecorated_unfold.
  destruct (body c model w) as [[e'|note] w2]; [|discriminate].
  destruct (is_Exception e') eqn:I; [discriminate|].
  intros [= <- _]. exact I.
Qed.

Lemma worker_unfold (c : change) (model : LLM MS) (w : world MS) :
  worker c model w
  = match undecorated c model w with
    | (inr r, w1) => (inr r, w1)
    | (inl e, w1) =>
      retry 2 60000 (undecorated c model) (snd (sleep_ms 60000 w1))
    end.
Proof.
  unfold generate_review_note, retry. cbn [Nat.sub]. apply retry_call_S.
Qed.

(** Everything the body raises was raised by the diff filter or by a
    method of the model. *)
Lemma body_raised (c : change) (model : LLM MS) (w w1 : world MS) (e : exn) :
  raises_only_Exception model ->
  filter_raises_only_Exception filter_diff_content ->
  body c model w = (inl e, w1) -> is_Exception e = true.
Proof.
  intros (Hg & Hc & Ht) Hf. unfold generate_review_note_body.
  unfold log_info. rewrite !bind_log.
  unfold bind at 1, lift at 1.
  destruct (filter_diff_content (diff c)) as [e0|content] eqn:F.
  { intros [= <- _]. exact (Hf _ _ F). }
  cbv zeta. rewrite !bind_log.
  unfold bind at 1, model_generate_text at 1, on_model at 1. simpl model_state.
  match goal with
  | |- context [generate_text model ?ms ?s] =>
    pose proof (Hg ms s) as Hg';
    destruct (generate_text model ms s) as [[e1|[]] s1]
  end.
  { intros [= <- _]. apply Hg'. reflexivity. }
  rewrite bind_log.
  unfold bind at 1, model_get_respond_content at 1, on_model at 1.
  simpl model_state.
  pose proof (Hc s1) as Hc'.
  destruct (get_respond_content model s1) as [[e2|raw] s2].
  { intros [= <- _]. apply Hc'. reflexivity. }
  rewrite bind_log.
  unfold bind at 1, model_get_respond_tokens at 1, on_model at 1.
  simpl model_state.
  pose proof (Ht s2) as Ht'.
  destruct (get_respond_tokens model s2) as [[e3|tokens] s3].
  { intros [= <- _]. apply Ht'. reflexivity. }
  discriminate.
Qed.

(** With collaborators that raise [Exception]s only, the decorator never
    has anything to repeat. *)
Lemma worker_is_undecorated (c : change) (model : LLM MS) (w : world MS) :
  raises_only_Exception model ->
  filter_raises_only_Exception filter_diff_content ->
  worker c model w = undecorated c model w
  /\ exists r w', worker c model w = (inr r, w').
Proof.
  intros Hm Hf. rewrite worker_unfold.
  destruct (undecorated c model w) as [[e|r] w1] eqn:U; [|eauto].
  pose proof (undecorated_raised c model w U) as N.
  rewrite undecorated_unfold in U.
  destruct (body c model w) as [[e'|note] w2] eqn:B; [|discriminate].
  rewrite (@body_raised c model w w2 e' Hm Hf B) in U. discriminate.
Qed.

(** C10 (corrected): [generate_review_note] swallows every instance of
    [Exception] that a step of the review raises: it logs it and returns
    [None], the decorator sees a normal return, repeats nothing and does
    not sleep.  What is not an instance of [Exception] passes the [except]
    clause: the decorator sleeps and starts the function again, and what
    leaves the function in the end was raised by its third attempt, after
    two sleeps of 60000 ms. *)
Theorem generate_review_note_swallows_instances_of_Exception :
  forall (c : change) (model : LLM MS) (w : world MS),
    match generate_review_note_body filter_diff_content GPT_MESSAGE
                                    repr_messages c model w with
    | (inr note, w1) =>
      generate_review_note filter_diff_content GPT_MESSAGE repr_messages
                           c model w = (inr (Some note), w1)
    | (inl e, w1) =>
      if is_Exception e
      then generate_review_note filter_diff_content GPT_MESSAGE
                                repr_messages c model w
           = (inr None, snd (log_error (py "GPT error:" ++ exn_str e) w1))
      else generate_review_note filter_diff_content GPT_MESSAGE
                                repr_messages c model w
           = retry 2 60000
               (generate_review_note_undecorated filter_diff_content
                  GPT_MESSAGE repr_messages c model)
               (snd (sleep_ms 60000 w1))
    end
    /\ (forall r w',
          generate_review_note_undecorated filter_diff_content GPT_MESSAGE
                                           repr_messages c model w
          = (inr r, w') ->
          generate_review_note filter_diff_content GPT_MESSAGE repr_messages
                               c model w = (inr r, w')
          /\ sleeps w' = sleeps w
          /\ List.length (generate_calls w')
             <= S (List.length (generate_calls w)))
    /\ (forall e w',
          generate_review_note filter_diff_content GPT_MESSAGE repr_messages
                               c model w = (inl e, w') ->
          is_Exception e = false
          /\ sleeps w' = sleeps w ++ [60000%Z; 60000%Z])
    /\ (raises_only_Exception model ->
        filter_raises_only_Exception filter_diff_content ->
        exists r w',
          generate_review_note filter_diff_content GPT_MESSAGE repr_messages
                               c model w = (inr r, w')
          /\ generate_review_note_undecorated filter_diff_content
               GPT_MESSAGE repr_messages c model w = (inr r, w')).
Proof.
  intros c model w. split; [|split; [|split]].
  - rewrite worker_unfold, undecorated_unfold.
    destruct (body c model w) as [[e|note] w1]; [|reflexivity].
    destruct (is_Exception e); reflexivity.
  - intros r w' U. rewrite worker_unfold, U. split; [reflexivity|].
    pose proof (quiet_undecorated c model w) as Q. rewrite U in Q.
    cbn [snd] in Q. split; [exact (within_no_sleep Q)|].
    destruct Q as (_ & _ & sent & Hc & Hl). rewrite Hc, length_app. lia.
  - intros e w'. unfold generate_review_note, retry. cbn [Nat.sub].
    rewrite retry_call_S.
    pose proof (quiet_undecorated c model w) as Q1.
    destruct (undecorated c model w) as [[e1|r1] w1]; [|discriminate].
    cbn [snd] in Q1. rewrite retry_call_S.
    pose proof (quiet_undecorated c model (snd (sleep_ms 60000 w1))) as Q2.
    destruct (undecorated c model (snd (sleep_ms 60000 w1)))
      as [[e2|r2] w2]; [|discriminate].
    cbn [snd] in Q2. rewrite retry_call_O.
    pose proof (quiet_undecorated c model (snd (sleep_ms 60000 w2))) as Q3.
    intros U. pose proof (undecorated_raised c model _ U) as N.
    rewrite U in Q3. cbn [snd] in Q3. split; [exact N|].
    rewrite (within_no_sleep Q3). cbn [sleep_ms snd sleeps].
    rewrite (within_no_sleep Q2). cbn [sleep_ms snd sleeps].
    rewrite (within_no_sleep Q1), <- app_assoc. reflexivity.
  - intros Hm Hf.
    destruct (@worker_is_undecorated c model w Hm Hf) as (E & r & w' & R).
    exists r, w'. split; [exact R | rewrite <- E; exact R].
Qed.

(** ** The dispatcher *)

Lemma loop_step_unfold (c : change) (waiting : list change) (w : world MS) :
  loop_step c waiting w
  = if is_review_file Config.EXCLUDE_FILE_TYPES Config.IGNORE_FILE_TYPES
                      (new_path c)
    then (inr (waiting ++ [c]), w)
    else (inr waiting, snd (log_info (skipped_log c) w)).
Proof.
  unfold loop_step. destruct (is_review_file _ _ (new_path c)); reflexivity.
Qed.

Lemma run_pool_nil (gen : change -> M MS (option str))
      (todo waiting : list change) (acc : list (option str)) :
  run_pool gen [] todo waiting acc
  = bind (finish_loop todo waiting)
         (fun waiting' => run_waiting gen waiting' acc).
Proof. reflexivity. Qed.

Lemma run_pool_loop_nil (gen : change -> M MS (option str)) (sched : schedule)
      (waiting : list change) (acc : list (option str)) :
  run_pool gen (0 :: sched) [] waiting acc = run_pool gen sched [] waiting acc.
Proof. reflexivity. Qed.

Lemma run_pool_loop_cons (gen : change -> M MS (option str))
      (sched : schedule) (c : change) (rest waiting : list change)
      (acc : list (option str)) :
  run_pool gen (0 :: sched) (c :: rest) waiting acc
  = bind (loop_step c waiting)
         (fun waiting' => run_pool gen sched rest waiting' acc).
Proof. reflexivity. Qed.

Lemma run_pool_task (gen : change -> M MS (option str)) (k : nat)
      (sched : schedule) (todo waiting : list change)
      (acc : list (option str)) :
  run_pool gen (S k :: sched) todo waiting acc
  = match take_task k waiting with
    | None => run_pool gen sched todo waiting acc
    | Some (c, waiting') =>
      bind (process_change gen c acc)
           (fun results => run_pool gen sched todo waiting' results)
    end.
Proof. reflexivity. Qed.

Lemma finish_loop_cons (c : change) (todo waiting : list change) :
  finish_loop (MS:=MS) (c :: todo) waiting
  = bind (loop_step c waiting) (fun waiting' => finish_loop todo waiting').
Proof. reflexivity. Qed.

Lemma run_waiting_cons (gen : change -> M MS (option str)) (c : change)
      (waiting : list change) (acc : list (option str)) :
  run_waiting gen (c :: waiting) acc
  = bind (process_change gen c acc)
         (fun results => run_waiting gen waiting results).
Proof. reflexivity. Qed.

Lemma review_files_of_cons (c : change) (cs : list change) :
  review_files_of (c :: cs)
  = if is_review_file Config.EXCLUDE_FILE_TYPES Config.IGNORE_FILE_TYPES
                      (new_path c)
    then c :: review_files_of cs else review_files_of cs.
Proof. reflexivity. Qed.

Lemma take_task_length (k : nat) (waiting waiting' : list change) (c : change) :
  take_task k waiting = Some (c, waiting') ->
  List.length waiting = S (List.length waiting').
Proof.
  revert k waiting'. induction waiting as [|d rest IH]; intros k waiting';
    cbn [take_task]; [discriminate|].
  destruct k as [|k].
  - intros [= _ <-]. reflexivity.
  - destruct (take_task k rest) as [[d' rest']|] eqn:T; [|discriminate].
    intros [= -> <-]. simpl. rewrite (IH _ _ T). reflexivity.
Qed.

Lemma take_task_perm (k : nat) (waiting waiting' : list change) (c : change) :
  take_task k waiting = Some (c, waiting') ->
  Permutation (c :: waiting') waiting.
Proof.
  revert k waiting'. induction waiting as [|d rest IH]; intros k waiting';
    cbn [take_task]; [discriminate|].
  destruct k as [|k].
  - intros [= <- <-]. apply Permutation_refl.
  - destruct (take_task k rest) as [[d' rest']|] eqn:T; [|discriminate].
    intros [= -> <-].
    apply perm_trans with (d :: c :: rest'); [apply perm_swap|].
    apply perm_skip. exact (IH _ _ T).
Qed.

(** The loop alone only logs, and leaves the reviewable files of [todo]
    waiting behind those that were. *)
Lemma finish_loop_unfold (todo : list change) :
  forall (waiting : list change) (w : world MS),
    finish_loop todo waiting w
    = (inr (waiting ++ review_files_of todo),
       snd (for_each (filter (fun c => negb (is_review_file
                                Config.EXCLUDE_FILE_TYPES
                                Config.IGNORE_FILE_TYPES (new_path c))) todo)
                     (fun c => log_info (skipped_log c)) w)).
Proof.
  induction todo as [|c todo IH]; intros waiting w.
  - simpl. rewrite app_nil_r. reflexivity.
  - rewrite finish_loop_cons, review_files_of_cons. unfold bind.
    rewrite loop_step_unfold. cbn [filter].
    destruct (is_review_file _ _ (new_path c)); cbn [negb].
    + rewrite IH, <- app_assoc. reflexivity.
    + rewrite IH. reflexivity.
Qed.

Lemma within_for_each_log {A} (f : A -> str) (xs : list A) :
  forall w : world MS,
    within 0 0 w (snd (for_each xs (fun x => log_info (f x)) w)).
Proof.
  induction xs as [|x xs IH]; intros w; [apply within_refl|].
  change (for_each (x :: xs) (fun x => log_info (f x)) w)
    with (for_each xs (fun x => log_info (f x)) (snd (log_info (f x) w))).
  exact (within_trans (quiet_log INFO (f x) w) (IH _)).
Qed.

Lemma quiet_process_change (gen : change -> M MS (option str)) (c : change)
      (acc : list (option str)) (k s : nat) :
  quiet k s (gen c) -> quiet k s (process_change gen c acc).
Proof.
  intros H w. specialize (H w). unfold process_change.
  destruct (gen c w) as [[e|r] w1]; exact H.
Qed.

Lemma quiet_run_waiting (gen : change -> M MS (option str)) (k s : nat) :
  (forall c, quiet k s (gen c)) ->
  forall waiting acc,
    quiet (List.length waiting * k) (List.length waiting * s)
          (run_waiting gen waiting acc).
Proof.
  intros Hgen. induction waiting as [|c waiting IH]; intros acc.
  - apply quiet_ret.
  - rewrite run_waiting_cons.
    apply (@quiet_bind _ _ k (List.length waiting * k)
                       s (List.length waiting * s));
      [apply quiet_process_change, Hgen | intros ?; apply IH].
Qed.

Lemma quiet_run_pool (gen : change -> M MS (option str)) (k s : nat) :
  (forall c, quiet k s (gen c)) ->
  forall sched todo waiting acc,
    quiet ((List.length waiting + List.length (review_files_of todo)) * k)
          ((List.length waiting + List.length (review_files_of todo)) * s)
          (run_pool gen sched todo waiting acc).
Proof.
  intros Hgen. induction sched as [|[|j] sched IH]; intros todo waiting acc.
  - rewrite run_pool_nil. intros w. unfold bind.
    rewrite finish_loop_unfold.
    pose proof (@quiet_run_waiting gen k s Hgen
                  (waiting ++ review_files_of todo) acc) as Q.
    rewrite length_app in Q.
    exact (within_trans (within_for_each_log skipped_log _ w) (Q _)).
  - destruct todo as [|c rest]; [rewrite run_pool_loop_nil; apply IH|].
    rewrite run_pool_loop_cons. intros w. unfold bind.
    rewrite loop_step_unfold, review_files_of_cons.
    destruct (is_review_file _ _ (new_path c)).
    + pose proof (IH rest (waiting ++ [c]) acc w) as Q.
      rewrite length_app in Q. cbn [List.length] in *.
      replace (List.length waiting + 1 + List.length (review_files_of rest))
        with (List.length waiting + S (List.length (review_files_of rest)))
        in Q by lia.
      exact Q.
    + exact (within_trans (quiet_log INFO (skipped_log c) w) (IH rest waiting acc _)).
  - rewrite run_pool_task.
    destruct (take_task j waiting) as [[c waiting']|] eqn:T; [|apply IH].
    rewrite (take_task_length _ _ T). cbn [plus Nat.mul Nat.add].
    apply (@quiet_bind _ _ k _ s _);
      [apply quiet_process_change, Hgen | intros ?; apply IH].
Qed.

Lemma quiet_chat_review (gen : change -> M MS (option str)) (cs : list change)
      (sched : schedule) (k s : nat) :
  (forall c, quiet k s (gen c)) ->
  quiet (List.length (review_files_of cs) * k)
        (List.length (review_files_of cs) * s) (chat_review cs gen sched).
Proof.
  intros Hgen. unfold chat_review.
  apply (@quiet_bind _ _ 0 _ 0 _); [apply quiet_log|].
  intros _.
  apply (@quiet_weaken _ (List.length (review_files_of cs) * k + 0) _
                       (List.length (review_files_of cs) * s + 0) _);
    [apply Nat.eq_le_incl, Nat.add_0_r | apply Nat.eq_le_incl, Nat.add_0_r |].
  apply quiet_bind; [exact (@quiet_run_pool gen k s Hgen sched cs [] [])|].
  intros [|r rs]; [apply quiet_ret | apply quiet_lift].
Qed.

(** The tasks of the pool never raise: what a task raises stays in its
    future. *)
Lemma process_change_returns (gen : change -> M MS (option str)) (c : change)
      (acc : list (option str)) (w : world MS) :
  exists rs w', process_change gen c acc w = (inr rs, w').
Proof.
  unfold process_change. destruct (gen c w) as [[e|r] w1]; eauto.
Qed.

(** Once every change is looked at and every task has run, nothing is left
    for the schedule to do. *)
Lemma run_pool_idle (gen : change -> M MS (option str)) (sched : schedule) :
  forall acc w, run_pool gen sched [] [] acc w = (inr acc, w).
Proof.
  induction sched as [|[|j] sched IH]; intros acc w;
    [reflexivity | rewrite run_pool_loop_nil; apply IH |].
  rewrite run_pool_task. apply IH.
Qed.

Lemma run_pool_last (gen : change -> M MS (option str)) (c : change)
      (sched : schedule) :
  forall acc w, run_pool gen sched [] [c] acc w = process_change gen c acc w.
Proof.
  induction sched as [|[|j] sched IH]; intros acc w.
  - rewrite run_pool_nil. unfold bind. cbn [finish_loop ret].
    rewrite run_waiting_cons. unfold bind.
    destruct (process_change_returns gen c acc w) as (rs & w' & ->).
    reflexivity.
  - rewrite run_pool_loop_nil. apply IH.
  - rewrite run_pool_task. destruct j as [|j]; cbn [take_task]; [|apply IH].
    unfold bind.
    destruct (process_change_returns gen c acc w) as (rs & w' & ->).
    apply run_pool_idle.
Qed.

(** With a single reviewable file, every schedule gives the same run. *)
Lemma run_pool_single (gen : change -> M MS (option str)) (c : change)
      (sched : schedule) :
  is_review_file Config.EXCLUDE_FILE_TYPES Config.IGNORE_FILE_TYPES
                 (new_path c) = true ->
  forall acc w, run_pool gen sched [c] [] acc w = process_change gen c acc w.
Proof.
  intros R. induction sched as [|[|j] sched IH]; intros acc w.
  - rewrite run_pool_nil. unfold bind. rewrite finish_loop_unfold.
    rewrite review_files_of_cons, R. cbn [filter negb app review_files_of].
    rewrite R. cbn [negb for_each ret snd].
    rewrite run_waiting_cons. unfold bind.
    destruct (process_change_returns gen c acc w) as (rs & w' & ->).
    reflexivity.
  - rewrite run_pool_loop_cons. unfold bind.
    rewrite loop_step_unfold, R. cbn [app]. apply run_pool_last.
  - rewrite run_pool_task. cbn [take_task]. apply IH.
Qed.

Lemma chat_review_single (gen : change -> M MS (option str)) (c : change)
      (sched : schedule) (w : world MS) :
  is_review_file Config.EXCLUDE_FILE_TYPES Config.IGNORE_FILE_TYPES
                 (new_path c) = true ->
  chat_review [c] gen sched w = chat_review [c] gen [] w.
Proof.
  intros R. unfold chat_review, log_info. rewrite !bind_log. unfold bind.
  rewrite !(run_pool_single gen c _ R). reflexivity.
Qed.

(** ** The handler *)

Lemma new_replies_app (w w' : world MS) (l : list reply) :
  replies w' = replies w ++ l -> new_replies w w' = l.
Proof.
  intros H. unfold new_replies. rewrite H, skipn_app, skipn_all, Nat.sub_diag.
  reflexivity.
Qed.

Lemma new_replies_same (w w' : world MS) :
  replies w' = replies w -> new_replies w w' = [].
Proof. intros H. apply new_replies_app. rewrite app_nil_r. exact H. Qed.

(** More than [MAX_FILES] files: the second guard returns. *)
Lemma over_limit_returns (cs : list change) (mi : MergeInfo) (hook : hook_info)
      (model : LLM MS) (sched : schedule) (w : world MS) :
  Config.MAX_FILES < List.length cs ->
  default_handle filter_diff_content GPT_MESSAGE repr_messages
                 (Some cs) mi hook model sched w
  = (inr tt,
     snd (log_info (py "❌ 文件数量 (" ++ str_of_nat (List.length cs)
                       ++ py ") 超过最大限制 ("
                       ++ str_of_nat Config.MAX_FILES ++ py ")")
            (snd (log_info (py "处理状态检查:") w)))).
Proof.
  intros H. unfold default_handle, log_info. rewrite bind_log.
  destruct cs as [|c cs]; [simpl in H; lia|].
  cbv beta iota delta [truthy negb len]. rewrite bind_ret.
  apply Nat.ltb_lt in H. rewrite H. reflexivity.
Qed.

(** No file passes the filter: the third guard returns. *)
Lemma no_review_files_returns (cs : list change) (mi : MergeInfo)
      (hook : hook_info) (model : LLM MS) (sched : schedule) (w : world MS) :
  cs <> [] ->
  List.length cs <= Config.MAX_FILES ->
  review_files_of cs = [] ->
  default_handle filter_diff_content GPT_MESSAGE repr_messages
                 (Some cs) mi hook model sched w
  = (inr tt,
     snd (log_info (py "❌ 没有需要审查的文件类型")
            (snd (log_info (py "处理状态检查:") w)))).
Proof.
  intros Hne Hle Hnone. unfold default_handle, log_info. rewrite bind_log.
  destruct cs as [|c cs]; [congruence|].
  cbv beta iota delta [truthy negb len iter]. rewrite bind_ret.
  apply Nat.ltb_ge in Hle. rewrite Hle. rewrite bind_ret.
  cbv zeta. rewrite Hnone. reflexivity.
Qed.

(** Past the guards, the handler is the dispatcher followed by the replies. *)
Lemma review_runs (cs : list change) (mi : MergeInfo)
      (hook : hook_info) (model : LLM MS) (sched : schedule) (w : world MS) :
  cs <> [] ->
  List.length cs <= Config.MAX_FILES ->
  review_files_of cs <> [] ->
  default_handle filter_diff_content GPT_MESSAGE repr_messages
                 (Some cs) mi hook model sched w
  = match chat_review cs (fun c => worker c model) sched
                      (dispatch_start cs w) with
    | (inl e, w2) => (inl e, w2)
    | (inr [], w2) =>
      add_reply (pass_notice hook (List.length cs)) w2
    | (inr (x :: info), w2) =>
      (inr tt,
       snd (add_reply (success_notice hook (List.length cs))
              (snd (log_info (py "评论发送完成")
                 (snd (add_reply (review_comment (x :: info))
                    (snd (log_info (py "代码审查完成，开始发送评论")
                                   w2))))))))
    end.
Proof.
  intros Hne Hle Hsome.
  unfold default_handle, dispatch_start, log_info. rewrite bind_log.
  destruct cs as [|c cs]; [congruence|].
  cbv beta iota delta [truthy negb len iter]. rewrite bind_ret.
  pose proof Hle as Hle'.
  apply Nat.ltb_ge in Hle. rewrite Hle. rewrite bind_ret.
  cbv zeta. destruct (review_files_of (c :: cs)) as [|f fs] eqn:E;
    [congruence|].
  rewrite bind_log. apply Nat.leb_le in Hle'. rewrite Hle'.
  cbv beta iota delta [andb]. rewrite bind_log.
  unfold bind at 1.
  destruct (chat_review (c :: cs) (fun c0 => worker c0 model) sched _)
    as [[e|[|x info]] w2]; reflexivity.
Qed.

Lemma dispatch_start_replies (cs : list change) (w : world MS) :
  replies (dispatch_start cs w) = replies w.
Proof. reflexivity. Qed.

(** With a single reviewable file the schedule does not matter. *)
Lemma default_handle_single (c : change) (mi : MergeInfo) (hook : hook_info)
      (model : LLM MS) (sched : schedule) (w : world MS) :
  is_review_file Config.EXCLUDE_FILE_TYPES Config.IGNORE_FILE_TYPES
                 (new_path c) = true ->
  default_handle filter_diff_content GPT_MESSAGE repr_messages
                 (Some [c]) mi hook model sched w
  = default_handle filter_diff_content GPT_MESSAGE repr_messages
                   (Some [c]) mi hook model [] w.
Proof.
  intros R.
  assert (Hne : [c] <> []) by discriminate.
  assert (Hle : List.length [c] <= Config.MAX_FILES)
    by (unfold Config.MAX_FILES; simpl; lia).
  assert (Hsome : review_files_of [c] <> [])
    by (rewrite review_files_of_cons, R; discriminate).
  rewrite !(@review_runs [c] mi hook model _ w Hne Hle Hsome).
  rewrite (@chat_review_single (fun c0 => worker c0 model) c sched
             (dispatch_start [c] w) R).
  reflexivity.
Qed.

(** The dispatcher with the worker of the handler leaves the sink alone. *)
Lemma chat_review_keeps_replies (model : LLM MS) (cs : list change)
      (sched : schedule) (w : world MS) :
  replies (snd (chat_review cs (fun c => worker c model) sched w))
  = replies w.
Proof.
  exact (proj1 (@quiet_chat_review (fun c => worker c model) cs sched 3 2
                  (fun c => quiet_worker c model) w)).
Qed.

(** C4, the code: for a non-empty change list of at most [MAX_FILES] files
    none of which passes the filter, [default_handle] returns after
    writing two log lines: no reply is added to the sink and the model is
    not called. *)
Theorem no_reviewable_files_only_logged :
  forall (cs : list change) (mi : MergeInfo) (hook : hook_info)
         (model : LLM MS) (sched : schedule) (w : world MS),
    cs <> [] ->
    List.length cs <= Config.MAX_FILES ->
    review_files_of cs = [] ->
    let r := default_handle filter_diff_content GPT_MESSAGE repr_messages
                            (Some cs) mi hook model sched w in
    fst r = inr tt
    /\ new_replies w (snd r) = []
    /\ generate_calls (snd r) = generate_calls w
    /\ logged (snd r)
       = logged w ++ [(INFO, py "处理状态检查:");
                      (INFO, py "❌ 没有需要审查的文件类型")].
Proof.
  intros cs mi hook model sched w Hne Hle Hnone. cbv zeta.
  rewrite (no_review_files_returns mi hook model sched w Hne Hle Hnone).
  cbn [fst snd log_info log_write logged replies generate_calls].
  repeat split.
  - apply new_replies_same. reflexivity.
  - rewrite <- app_assoc. reflexivity.
Qed.

(** C2, the code: for a non-empty change list of at most [MAX_FILES]
    files, [default_handle] adds no reply when no file passes the filter,
    and none when the dispatcher raises; when the dispatcher returns a
    text, it adds exactly one DingTalk notice, preceded by one review
    comment carrying the text exactly when the text is not empty. *)
Theorem notifications_of_a_reviewed_event :
  forall (cs : list change) (mi : MergeInfo) (hook : hook_info)
         (model : LLM MS) (sched : schedule) (w : world MS),
    cs <> [] ->
    List.length cs <= Config.MAX_FILES ->
    let r := default_handle filter_diff_content GPT_MESSAGE repr_messages
                            (Some cs) mi hook model sched w in
    match review_files_of cs with
    | [] => fst r = inr tt /\ new_replies w (snd r) = []
    | _ :: _ =>
      match chat_review cs
              (fun c => generate_review_note filter_diff_content
                          GPT_MESSAGE repr_messages c model)
              sched (dispatch_start cs w) with
      | (inl e, _) => fst r = inl e /\ new_replies w (snd r) = []
      | (inr review_info, _) =>
        fst r = inr tt
        /\ new_replies w (snd r)
           = match review_info with
             | [] => [pass_notice hook (List.length cs)]
             | _ :: _ => [review_comment review_info;
                          success_notice hook (List.length cs)]
             end
        /\ count_ops (new_replies w (snd r)) = 1
        /\ count_comments (new_replies w (snd r))
           = match review_info with [] => 0 | _ :: _ => 1 end
      end
    end.
Proof.
  intros cs mi hook model sched w Hne Hle. cbv zeta.
  destruct (review_files_of cs) as [|f fs] eqn:E.
  - rewrite (no_review_files_returns mi hook model sched w Hne Hle E).
    split; [reflexivity|]. apply new_replies_same. reflexivity.
  - assert (Hsome : review_files_of cs <> []) by congruence.
    rewrite (review_runs mi hook model sched w Hne Hle Hsome).
    pose proof (chat_review_keeps_replies model cs sched
                                          (dispatch_start cs w)) as Hq.
    rewrite dispatch_start_replies in Hq.
    destruct (chat_review cs _ sched (dispatch_start cs w))
      as [[e|[|x info]] w2]; cbn [snd] in Hq.
    + split; [reflexivity|]. apply new_replies_same. exact Hq.
    + assert (N : new_replies w (snd (add_reply
                    (pass_notice hook (List.length cs)) w2))
                  = [pass_notice hook (List.length cs)]).
      { apply new_replies_app. simpl. congruence. }
      rewrite N. repeat split.
    + cbn [fst snd].
      match goal with
      | |- _ /\ new_replies w ?w3 = ?l /\ _ =>
        assert (N : new_replies w w3 = l)
          by (apply new_replies_app; simpl; rewrite Hq, <- app_assoc;
              reflexivity)
      end.
      rewrite N. repeat split.
Qed.

(** C1, the code at a change list of 51 files: [default_handle] returns at
    its second guard; the sink receives nothing (in particular no DingTalk
    notice) and the model is not called. *)
Theorem over_limit_event_sends_nothing :
  forall (c : change) (mi : MergeInfo) (hook : hook_info)
         (model : LLM MS) (sched : schedule) (w : world MS),
    let r := default_handle filter_diff_content GPT_MESSAGE repr_messages
                            (Some (repeat c 51)) mi hook model sched w in
    fst r = inr tt
    /\ new_replies w (snd r) = []
    /\ count_ops (new_replies w (snd r)) = 0
    /\ generate_calls (snd r) = generate_calls w.
Proof.
  intros c mi hook model sched w. cbv zeta.
  rewrite over_limit_returns
    by (rewrite repeat_length; unfold Config.MAX_FILES; lia).
  cbn [fst snd log_info log_write logged replies generate_calls].
  assert (N : forall w' : world MS, replies w' = replies w ->
                                    new_replies w w' = [])
    by (intros; apply new_replies_same; assumption).
  rewrite N by reflexivity. repeat split.
Qed.

(** C5, the code when [get_changes] returns [None]: [merge_handle] raises
    the [TypeError] of [len(None)] from its second log line, with nothing
    added to the sink; [default_handle] alone would return at its first
    guard, and so does [merge_handle] for an empty list. *)
Theorem fetch_failure_raises_out_of_merge_handle :
  forall (info : exn + MergeInfo) (mi : MergeInfo) (hook : hook_info)
         (model : LLM MS) (sched : schedule) (w : world MS),
    let r := merge_handle filter_diff_content GPT_MESSAGE repr_messages
                          {| get_changes := inr None; get_info := info |}
                          hook model sched w in
    let d := default_handle filter_diff_content GPT_MESSAGE repr_messages
                            None mi hook model sched w in
    let e := merge_handle filter_diff_content GPT_MESSAGE repr_messages
                          {| get_changes := inr (Some []);
                             get_info := inr mi |}
                          hook model sched w in
    fst r = inl (TypeError (py "object of type 'NoneType' has no len()"))
    /\ replies (snd r) = replies w
    /\ List.length (logged (snd r)) = S (List.length (logged w))
    /\ fst d = inr tt
    /\ replies (snd d) = replies w
    /\ fst e = inr tt
    /\ replies (snd e) = replies w.
Proof.
  intros info mi hook model sched w. cbv zeta. repeat split.
  unfold merge_handle, log_info. rewrite bind_log.
  cbn [bind lift len raise snd fst log_write logged get_changes].
  rewrite length_app. simpl. lia.
Qed.

End EngineFacts.

(* ================================================================== *)
(** * Runs of the handler in the concrete setting *)
(* ================================================================== *)

(** C3, the code with a model whose first two calls fail and whose third
    call would succeed: the worker calls the model once, never sleeps and
    returns [None]; [str.join] then raises on that [None], out of
    [chat_review] and out of [default_handle], with nothing added to the
    sink, under every schedule.  With a model that never fails the worker
    returns the note. *)
Theorem failing_model_call_is_not_retried :
  forall sched : schedule,
  let c := Demo.file "a.py" in
  let r := Demo.worker 2 c Demo.start in
  let d := chat_review [c] (Demo.worker 2) sched Demo.start in
  let h := Demo.handle 2 sched (Some [c]) in
  fst r = inr None
  /\ List.length (generate_calls (snd r)) = 1
  /\ sleeps (snd r) = []
  /\ fst d = inl (TypeError (py "sequence item 0: expected str instance, NoneType found"))
  /\ fst h = inl (TypeError (py "sequence item 0: expected str instance, NoneType found"))
  /\ replies (snd h) = []
  /\ fst (generate_text (Demo.flaky_model 2) [] 2) = inr tt
  /\ fst (Demo.worker 0 c Demo.start)
     = inr (Some (py "# 📚`a.py`" ++ nl ++ nl
                    ++ py "(42 tokens) AI review 意见如下:" ++ nl ++ nl
                    ++ py "LGTM" ++ nl ++ nl ++ py "---" ++ nl ++ nl
                    ++ py "---" ++ nl ++ nl)).
Proof.
  intros sched. cbv zeta.
  assert (R : is_review_file Config.EXCLUDE_FILE_TYPES
                Config.IGNORE_FILE_TYPES (new_path (Demo.file "a.py")) = true)
    by reflexivity.
  rewrite (@chat_review_single nat (Demo.worker 2) (Demo.file "a.py")
             sched Demo.start R).
  unfold Demo.handle.
  rewrite (@default_handle_single nat Demo.keep_diff Demo.prompt
             Demo.show_messages unit (Demo.file "a.py") tt Demo.hook
             (Demo.flaky_model 2) sched Demo.start R).
  vm_compute. repeat split.
Qed.

(** C10, counterexample: a model whose [generate_text] raises [SystemExit]
    makes [generate_review_note] raise it to its caller, after three calls
    of the model and two sleeps of a minute. *)
Lemma generate_review_note_lets_SystemExit_through :
  let r := generate_review_note Demo.keep_diff Demo.prompt
             Demo.show_messages (Demo.file "a.py") Demo.exiting_model
             Demo.start in
  fst r = inl (BaseOnly (py "SystemExit") (py "1"))
  /\ sleeps (snd r) = [60000%Z; 60000%Z]
  /\ List.length (generate_calls (snd r)) = 3
  /\ (forall result, fst r <> inr result).
Proof.
  vm_compute. repeat split. intros result. discriminate.
Qed.

(** C2, the code at an event whose two files are both outside the include
    list: it ends without any notification. *)
Lemma no_notification_without_reviewable_file :
  let cs := [Demo.file "README.md"; Demo.file "docs/guide.txt"] in
  let h := Demo.handle 0 [] (Some cs) in
  cs <> []
  /\ fst h = inr tt
  /\ count_ops (new_replies Demo.start (snd h)) <> 1.
Proof.
  cbv zeta. split; [discriminate|]. split; [reflexivity|].
  vm_compute. discriminate.
Qed.

(** C2, at the event of the specification's example: [a.py] is reviewed,
    [b.md] is not; one comment and one DingTalk notice follow. *)
Lemma notifications_of_a_reviewed_event_witness :
  let cs := [Demo.file "a.py"; Demo.file "b.md"] in
  let h := Demo.handle 0 [] (Some cs) in
  let new := new_replies Demo.start (snd h) in
  fst h = inr tt
  /\ (exists review_info,
        review_info <> []
        /\ new = [review_comment review_info;
                  success_notice Demo.hook (List.length cs)])
  /\ count_ops new = 1
  /\ count_comments new = 1.
Proof.
  cbv zeta.
  pose proof (@notifications_of_a_reviewed_event
                nat Demo.keep_diff Demo.prompt Demo.show_messages unit
                [Demo.file "a.py"; Demo.file "b.md"] tt Demo.hook
                (Demo.flaky_model 0) [] Demo.start
                ltac:(discriminate)
                ltac:(unfold Config.MAX_FILES; simpl; lia)) as H.
  cbv zeta in H.
  change (review_files_of [Demo.file "a.py"; Demo.file "b.md"])
    with [Demo.file "a.py"] in H.
  cbv beta iota in H.
  destruct (chat_review _ _ _ (dispatch_start _ Demo.start))
    as [[e|[|x info]] w2] eqn:E; try (vm_compute in E; discriminate).
  destruct H as (Hfst & Hnew & Hops & Hcom).
  split; [exact Hfst|]. split; [|split; assumption].
  exists (x :: info). split; [discriminate | exact Hnew].
Defined.

(** C4, the code at the single file [README.md]: the sink stays empty, no
    DingTalk notice is emitted. *)
Lemma no_reviewable_files_notice_missing :
  let cs := [Demo.file "README.md"] in
  let h := Demo.handle 0 [] (Some cs) in
  cs <> []
  /\ List.length cs <= Config.MAX_FILES
  /\ review_files_of cs = []
  /\ fst h = inr tt
  /\ ~ (exists n, In n (replies (snd h)) /\ is_ops_notice n = true).
Proof.
  cbv zeta. split; [discriminate|]. split; [unfold Config.MAX_FILES; simpl; lia|].
  split; [reflexivity|]. split; [reflexivity|].
  intros (n & Hin & _). vm_compute in Hin. exact Hin.
Qed.

(** C4, at the single file [README.md]. *)
Lemma no_reviewable_files_only_logged_witness :
  let r := Demo.handle 0 [] (Some [Demo.file "README.md"]) in
  fst r = inr tt
  /\ new_replies Demo.start (snd r) = []
  /\ generate_calls (snd r) = []
  /\ logged (snd r) = [(INFO, py "处理状态检查:");
                       (INFO, py "❌ 没有需要审查的文件类型")].
Proof.
  apply (@no_reviewable_files_only_logged
           nat Demo.keep_diff Demo.prompt Demo.show_messages unit
           [Demo.file "README.md"] tt Demo.hook
           (Demo.flaky_model 0) [] Demo.start).
  - discriminate.
  - unfold Config.MAX_FILES. simpl. lia.
  - reflexivity.
Defined.

(* ================================================================== *)
(** * Facts: the thread pool *)
(* ================================================================== *)

Section PoolFacts.

Import Pool.

Variable R : Type.





















End PoolFacts.


(* ================================================================== *)
(** * Further facts: text *)
(* ================================================================== *)

(* ---------------- whitespace ---------------- *)

Lemma rstrip_last (s : str) (c : N) :
  rstrip (s ++ [c]) = if isspace c then rstrip s else s ++ [c].
Proof.
  induction s as [|d s IH]; simpl.
  - destruct (isspace c); reflexivity.
  - rewrite IH. destruct (isspace c) eqn:E; [reflexivity|].
    destruct (s ++ [c]) eqn:F; [destruct s; discriminate | reflexivity].
Qed.

Lemma rstrip_trimmed_right (s : str) : trimmed_right (rstrip s).
Proof.
  induction s as [|c s IH] using rev_ind.
  - exact I.
  - rewrite rstrip_last. destruct (isspace c) eqn:E; [exact IH|].
    unfold trimmed_right. rewrite rev_app_distr. simpl. exact E.
Qed.

(** X1: the text [remove_think_content] returns neither starts nor ends
    with whitespace and is never longer than its input. *)
Theorem remove_think_content_is_trimmed_and_not_longer :
  forall s : str,
    trimmed_left (remove_think_content s)
    /\ trimmed_right (remove_think_content s)
    /\ List.length (remove_think_content s) <= List.length s.
Proof.
  intros s. unfold remove_think_content, strip. repeat split.
  - apply rstrip_trimmed, lstrip_trimmed.
  - apply rstrip_trimmed_right.
  - pose proof (strip_length (re_sub_think s)) as H. unfold strip in H.
    pose proof (re_sub_from_length s 0) as L. unfold re_sub_think in *. lia.
Qed.

(* ---------------- complete blocks ---------------- *)

Lemma startswith_self (t s : str) : startswith (t ++ s) t = true.
Proof.
  induction t as [|y t IH]; [reflexivity|].
  simpl. rewrite N.eqb_refl. exact IH.
Qed.

Lemma find_none_not_here (needle s : str) :
  find needle s = None -> startswith s needle = false.
Proof.
  destruct s as [|c s]; [rewrite find_nil | rewrite find_cons];
    destruct (startswith _ needle); congruence.
Qed.

(** A close tag cannot begin in a non-empty text and end inside a following
    close tag. *)
Lemma startswith_close_before_close (x rest : str) :
  x <> [] ->
  startswith (x ++ close_tag ++ rest) close_tag = startswith x close_tag.
Proof.
  rewrite close_tag_eq. intros Hx.
  destruct x as [|c0 [|c1 [|c2 [|c3 [|c4 [|c5 [|c6 [|c7 x]]]]]]]];
    [congruence|..]; simpl; split_eqb; reflexivity.
Qed.

(** The first close tag after a text without close tag is the one that
    follows it. *)
Lemma find_close_after (b rest : str) :
  find close_tag b = None ->
  find close_tag (b ++ close_tag ++ rest) = Some (List.length b).
Proof.
  induction b as [|d b IH]; intros H.
  - change ([] ++ close_tag ++ rest) with (close_tag ++ rest).
    destruct (close_tag ++ rest) as [|x xs] eqn:E;
      [rewrite close_tag_eq in E; discriminate|].
    rewrite find_cons, <- E, startswith_self. reflexivity.
  - change ((d :: b) ++ close_tag ++ rest)
      with (d :: (b ++ close_tag ++ rest)).
    rewrite find_cons.
    change (d :: (b ++ close_tag ++ rest))
      with ((d :: b) ++ close_tag ++ rest).
    rewrite startswith_close_before_close by discriminate.
    rewrite (@find_none_not_here close_tag (d :: b) H).
    rewrite (IH (@find_none_tail close_tag d b H)). reflexivity.
Qed.

Lemma re_sub_from_skipn (k : nat) (s : str) :
  re_sub_from k s = re_sub_from 0 (skipn k s).
Proof.
  revert s; induction k as [|k IH]; intros s; [reflexivity|].
  destruct s as [|c s]; [reflexivity|].
  rewrite re_sub_from_skip. apply IH.
Qed.

(** Where a match starts, the substitution resumes right after it. *)
Lemma re_sub_drops_match (s : str) (n : nat) :
  match_at s = Some n -> re_sub_think s = re_sub_think (skipn n s).
Proof.
  intros H. pose proof (@match_at_bounds s n H) as B.
  destruct s as [|c s]; [simpl in B; lia|].
  unfold re_sub_think. rewrite re_sub_from_here, H, re_sub_from_skipn.
  destruct n as [|n]; [lia | reflexivity].
Qed.

Lemma match_at_block (b rest : str) :
  find close_tag b = None ->
  match_at (open_tag ++ b ++ close_tag ++ rest)
  = Some (List.length (open_tag ++ b ++ close_tag)).
Proof.
  intros H. unfold match_at.
  rewrite startswith_self, skipn_app, skipn_all, Nat.sub_diag.
  change (skipn 0 (b ++ close_tag ++ rest)) with (b ++ close_tag ++ rest).
  change ([] ++ b ++ close_tag ++ rest) with (b ++ close_tag ++ rest).
  rewrite (@find_close_after b rest H), !length_app. f_equal; lia.
Qed.

Lemma re_sub_block (b rest : str) :
  find close_tag b = None ->
  re_sub_think (open_tag ++ b ++ close_tag ++ rest) = re_sub_think rest.
Proof.
  intros H. rewrite (@re_sub_drops_match _ _ (@match_at_block b rest H)).
  f_equal.
  replace (open_tag ++ b ++ close_tag ++ rest)
    with ((open_tag ++ b ++ close_tag) ++ rest)
    by (rewrite <- !app_assoc; reflexivity).
  rewrite skipn_app, skipn_all, Nat.sub_diag. reflexivity.
Qed.

Lemma re_sub_plain_prefix (a s : str) :
  Forall (fun x => x <> 60%N) a ->
  re_sub_think (a ++ s) = a ++ re_sub_think s.
Proof.
  unfold re_sub_think. induction 1 as [|d a Hd Ha IH]; [reflexivity|].
  change ((d :: a) ++ s) with (d :: (a ++ s)).
  rewrite re_sub_from_here.
  assert (M : match_at (d :: a ++ s) = None).
  { unfold match_at. rewrite open_tag_eq. simpl.
    apply N.eqb_neq in Hd. rewrite Hd. reflexivity. }
  rewrite M, IH. reflexivity.
Qed.

(** X2: a [<think>] block whose body holds no close tag is removed together
    with its body, whatever the body holds (line breaks, further open
    tags); text before it without [<] is kept, the scan resumes after the
    close tag, and the result is stripped. *)
Theorem complete_block_is_removed_with_its_body :
  forall a b rest : str,
    Forall (fun x => x <> 60%N) a ->
    find close_tag b = None ->
    remove_think_content (a ++ open_tag ++ b ++ close_tag ++ rest)
    = strip (a ++ re_sub_think rest).
Proof.
  intros a b rest Ha Hb. unfold remove_think_content.
  rewrite (@re_sub_plain_prefix a _ Ha), (@re_sub_block b rest Hb).
  reflexivity.
Qed.

(** X2, at a block that spans two lines and holds an open tag. *)
Lemma complete_block_is_removed_with_its_body_witness :
  Forall (fun x => x <> 60%N) (py "ok ")
  /\ find close_tag (py "x
<think>y") = None
  /\ remove_think_content
       (py "ok " ++ open_tag ++ py "x
<think>y" ++ close_tag ++ py " done<think>z</think>! ")
     = py "ok  done!".
Proof.
  assert (Ha : Forall (fun x => x <> 60%N) (py "ok "))
    by (repeat constructor; discriminate).
  split; [exact Ha|]. split; [reflexivity|].
  rewrite (@complete_block_is_removed_with_its_body
             (py "ok ") (py "x
<think>y") (py " done<think>z</think>! ") Ha eq_refl).
  reflexivity.
Defined.

(* ---------------- str.replace on blank lines ---------------- *)

Lemma replace_pair (rest : str) :
  replace (nl ++ nl) nl (10%N :: 10%N :: rest)
  = 10%N :: replace (nl ++ nl) nl rest.
Proof. reflexivity. Qed.

Lemma replace_from_here (old new : str) (c : N) (s : str) :
  replace_from old new 0 (c :: s)
  = if startswith (c :: s) old
    then new ++ replace_from old new (Nat.pred (List.length old)) s
    else c :: replace_from old new 0 s.
Proof. reflexivity. Qed.

Lemma replace_single (rest : str) :
  startswith rest nl = false ->
  replace (nl ++ nl) nl (10%N :: rest) = 10%N :: replace (nl ++ nl) nl rest.
Proof.
  intros H. unfold replace. rewrite replace_from_here.
  change (startswith (10%N :: rest) (nl ++ nl))
    with ((10 =? 10)%N && startswith rest nl).
  rewrite H. reflexivity.
Qed.

Lemma replace_newline_run_pair (rest : str) :
  startswith rest nl = false ->
  forall n,
    replace (nl ++ nl) nl (repeat 10%N n ++ rest)
    = repeat 10%N (Nat.div2 (S n)) ++ replace (nl ++ nl) nl rest
    /\ replace (nl ++ nl) nl (repeat 10%N (S n) ++ rest)
       = repeat 10%N (Nat.div2 (S (S n))) ++ replace (nl ++ nl) nl rest.
Proof.
  intros H. induction n as [|n [IH1 IH2]].
  - split; [reflexivity|]. apply replace_single. exact H.
  - split; [exact IH2|].
    change (repeat 10%N (S (S n)) ++ rest)
      with (10%N :: 10%N :: (repeat 10%N n ++ rest)).
    rewrite replace_pair, IH1. reflexivity.
Qed.

(** X3: [replace("\n\n", "\n")], as the worker applies it to the response,
    halves a run of line breaks, rounding up: a run of [n] becomes one of
    [(n + 1) / 2], so blank lines survive from runs of three on. *)
Theorem replace_halves_newline_runs :
  forall (n : nat) (rest : str),
    startswith rest nl = false ->
    replace (nl ++ nl) nl (repeat 10%N n ++ rest)
    = repeat 10%N (Nat.div2 (S n)) ++ replace (nl ++ nl) nl rest.
Proof.
  intros n rest H. apply (@replace_newline_run_pair rest H).
Qed.

(** X3, at three line breaks before [end]. *)
Lemma replace_halves_newline_runs_witness :
  startswith (py "end") nl = false
  /\ replace (nl ++ nl) nl (repeat 10%N 3 ++ py "end")
     = nl ++ nl ++ py "end".
Proof.
  split; [reflexivity|].
  rewrite (@replace_halves_newline_runs 3 (py "end") eq_refl).
  reflexivity.
Defined.

(* ---------------- the shipped configuration ---------------- *)

(** X4: with the lists of [config.py], a path that ends with [.go] is
    reviewed exactly when it does not end with [mod.go]; the ignore entry
    is a suffix of the whole path, not a file name. *)
Theorem go_files_reviewed_unless_path_ends_in_mod_go :
  forall p : str,
    endswith p (py ".go") = true ->
    is_review_file Config.EXCLUDE_FILE_TYPES Config.IGNORE_FILE_TYPES p
    = negb (endswith p (py "mod.go")).
Proof.
  intros p H. unfold is_review_file.
  assert (E : any_endswith p Config.EXCLUDE_FILE_TYPES = true).
  { unfold any_endswith. apply existsb_exists. exists (py ".go").
    split; [|exact H].
    unfold Config.EXCLUDE_FILE_TYPES. apply in_map. simpl. tauto. }
  rewrite E. unfold any_endswith, Config.IGNORE_FILE_TYPES. simpl.
  rewrite orb_false_r. reflexivity.
Qed.

(** X4, at [src/gomod.go]. *)
Lemma go_files_reviewed_unless_path_ends_in_mod_go_witness :
  endswith (py "src/gomod.go") (py ".go") = true
  /\ is_review_file Config.EXCLUDE_FILE_TYPES Config.IGNORE_FILE_TYPES
                    (py "src/gomod.go") = false.
Proof.
  split; [reflexivity|].
  rewrite (@go_files_reviewed_unless_path_ends_in_mod_go
             (py "src/gomod.go") eq_refl).
  reflexivity.
Defined.

(* ---------------- joining the results ---------------- *)

Lemma join_items_spec (items : list (option str)) :
  forall k,
    join_items k items
    = match first_none items with
      | Some i =>
        inl (TypeError (py "sequence item " ++ str_of_Z (Z.of_nat (k + i))
                           ++ py ": expected str instance, NoneType found"))
      | None => inr (strings_of items)
      end.
Proof.
  induction items as [|[s|] items IH]; intros k;
    cbn [join_items first_none strings_of].
  - reflexivity.
  - rewrite IH. destruct (first_none items) as [i|]; cbn [option_map];
      [|reflexivity].
    replace (S k + i) with (k + S i) by lia. reflexivity.
  - rewrite Nat.add_0_r. reflexivity.
Qed.

(** X5: joining the results raises the [TypeError] that names the index of
    the first [None] among them, and otherwise returns the strings joined
    by the separator. *)
Theorem str_join_raises_at_first_none :
  forall (sep : str) (items : list (option str)),
    str_join sep items
    = match first_none items with
      | Some i =>
        inl (TypeError (py "sequence item " ++ str_of_Z (Z.of_nat i)
                           ++ py ": expected str instance, NoneType found"))
      | None => inr (join sep (strings_of items))
      end.
Proof.
  intros sep items. unfold str_join. rewrite join_items_spec.
  destruct (first_none items); reflexivity.
Qed.

(* ================================================================== *)
(** * Further facts: the dispatcher *)
(* ================================================================== *)

Section DispatcherFacts.

Variable MS : Type.

Lemma bind_log_info {A} (msg : str) (k : unit -> M MS A) (w : world MS) :
  bind (log_info msg) k w = k tt (snd (log_info msg w)).
Proof. reflexivity. Qed.

Lemma for_each_cons {A} (x : A) (xs : list A) (body : A -> M MS unit) :
  for_each (x :: xs) body = bind (body x) (fun _ => for_each xs body).
Proof. reflexivity. Qed.

Lemma for_each_logs {A} (f : A -> str) (xs : list A) :
  only_logs (List.length xs) (for_each xs (fun x => log_info (MS:=MS) (f x))).
Proof.
  induction xs as [|x xs IH]; intros w.
  - simpl. repeat split. lia.
  - rewrite for_each_cons, bind_log_info.
    destruct (IH (snd (log_info (f x) w))) as (H1 & H2 & H3 & H4 & H5).
    cbv beta zeta in *. rewrite H1, H2, H3, H4, H5. simpl.
    rewrite length_app. simpl. repeat split. lia.
Qed.

Lemma for_each_logs_returns {A} (f : A -> str) (xs : list A) (w : world MS) :
  fst (for_each xs (fun x => log_info (f x)) w) = inr tt.
Proof.
  revert w; induction xs as [|x xs IH]; intros w; [reflexivity|].
  rewrite for_each_cons, bind_log_info. apply IH.
Qed.

(** Without a reviewable file the pool has nothing to run: under every
    schedule the loop logs the skipped files in the order of [changes]. *)
Lemma run_pool_skips (gen : change -> M MS (option str)) (sched : schedule) :
  forall todo acc w,
    review_files_of todo = [] ->
    run_pool gen sched todo [] acc w
    = (inr acc, snd (for_each todo (fun c => log_info (skipped_log c)) w)).
Proof.
  induction sched as [|[|j] sched IH]; intros todo acc w H.
  - rewrite run_pool_nil. unfold bind. rewrite finish_loop_unfold, H.
    cbn [app run_waiting ret].
    revert w. induction todo as [|c todo IHt]; intros w;
      [reflexivity|].
    rewrite review_files_of_cons in H. cbn [filter].
    destruct (is_review_file _ _ (new_path c)); [discriminate|].
    cbn [negb]. rewrite !for_each_cons, !bind_log_info.
    apply (IHt H).
  - destruct todo as [|c rest]; [rewrite run_pool_loop_nil; apply IH; exact H|].
    rewrite run_pool_loop_cons. unfold bind. rewrite loop_step_unfold.
    rewrite review_files_of_cons in H.
    destruct (is_review_file _ _ (new_path c)); [discriminate|].
    rewrite for_each_cons, bind_log_info. apply IH. exact H.
  - rewrite run_pool_task. cbn [take_task]. apply IH. exact H.
Qed.

(** X6: on changes none of which passes the filter, [chat_review] returns
    the empty string without running [generate_review], under every
    schedule: it writes its opening log entry and one entry per skipped
    file, and neither the model nor the list of its calls changes. *)
Theorem chat_review_without_reviewable_file_returns_empty :
  forall (gen : change -> M MS (option str)) (cs : list change)
         (sched : schedule) (w : world MS),
    review_files_of cs = [] ->
    chat_review cs gen sched w
    = (inr [],
       snd (for_each cs (fun c => log_info (skipped_log c))
              (snd (log_info (py "开始code review") w))))
    /\ model_state (snd (chat_review cs gen sched w)) = model_state w
    /\ generate_calls (snd (chat_review cs gen sched w)) = generate_calls w
    /\ List.length (logged (snd (chat_review cs gen sched w)))
       = List.length (logged w) + 1 + List.length cs.
Proof.
  intros gen cs sched w H.
  assert (E : chat_review cs gen sched w
              = (inr [],
                 snd (for_each cs (fun c => log_info (skipped_log c))
                        (snd (log_info (py "开始code review") w))))).
  { unfold chat_review. rewrite bind_log_info. unfold bind.
    rewrite (@run_pool_skips gen sched cs [] _ H). reflexivity. }
  split; [exact E|]. rewrite E. cbn [snd].
  destruct (for_each_logs skipped_log cs
              (snd (log_info (py "开始code review") w)))
    as (H1 & _ & H3 & _ & H5).
  cbv zeta in *. rewrite H1, H3, H5. simpl. rewrite length_app. simpl.
  repeat split; lia.
Qed.

(** What a task does to the results: it appends what [generate_review]
    handed over, or leaves them alone when [generate_review] raised. *)
Lemma process_change_outcome (gen : change -> M MS (option str)) (c : change)
      (acc : list (option str)) (w : world MS) :
  (exists r w', process_change gen c acc w = (inr (acc ++ [r]), w')
                /\ hands_over gen c r)
  \/ (exists w', process_change gen c acc w = (inr acc, w')
                 /\ can_raise gen c).
Proof.
  unfold process_change. destruct (gen c w) as [[e|r] w1] eqn:E.
  - right. exists w1. split; [reflexivity|]. exists w, e, w1. exact E.
  - left. exists r, w1. split; [reflexivity|]. exists w, w1. exact E.
Qed.

Lemma run_waiting_outcomes (gen : change -> M MS (option str)) :
  forall waiting acc w,
  exists new done dropped w',
    run_waiting gen waiting acc w = (inr (acc ++ new), w')
    /\ Forall2 (hands_over gen) done new
    /\ Forall (can_raise gen) dropped
    /\ Permutation (done ++ dropped) waiting.
Proof.
  induction waiting as [|c waiting IH]; intros acc w.
  - exists [], [], [], w. rewrite app_nil_r.
    repeat split; constructor.
  - rewrite run_waiting_cons. unfold bind.
    destruct (process_change_outcome gen c acc w)
      as [(r & w1 & -> & Hr) | (w1 & -> & Hc)].
    + destruct (IH (acc ++ [r]) w1) as (new & done & dropped & w' & E & F & D & P).
      exists (r :: new), (c :: done), dropped, w'.
      rewrite E, <- app_assoc. split; [reflexivity|].
      split; [constructor; assumption|]. split; [exact D|].
      cbn [app]. apply perm_skip. exact P.
    + destruct (IH acc w1) as (new & done & dropped & w' & E & F & D & P).
      exists new, done, (c :: dropped), w'.
      split; [exact E|]. split; [exact F|].
      split; [constructor; assumption|].
      apply Permutation_sym, Permutation_cons_app, Permutation_sym. exact P.
Qed.

(** Under every schedule, each reviewable file is run once: its result is
    among the new results, in the order of completion, or its call
    raised. *)
Lemma run_pool_outcomes (gen : change -> M MS (option str))
      (sched : schedule) :
  forall todo waiting acc w,
  exists new done dropped w',
    run_pool gen sched todo waiting acc w = (inr (acc ++ new), w')
    /\ Forall2 (hands_over gen) done new
    /\ Forall (can_raise gen) dropped
    /\ Permutation (done ++ dropped) (waiting ++ review_files_of todo).
Proof.
  induction sched as [|[|j] sched IH]; intros todo waiting acc w.
  - rewrite run_pool_nil. unfold bind. rewrite finish_loop_unfold.
    apply run_waiting_outcomes.
  - destruct todo as [|c rest]; [rewrite run_pool_loop_nil; apply IH|].
    rewrite run_pool_loop_cons. unfold bind.
    rewrite loop_step_unfold, review_files_of_cons.
    destruct (is_review_file _ _ (new_path c)).
    + destruct (IH rest (waiting ++ [c]) acc w)
        as (new & done & dropped & w' & E & F & D & P).
      exists new, done, dropped, w'. rewrite <- app_assoc in P.
      repeat split; assumption.
    + apply IH.
  - rewrite run_pool_task.
    destruct (take_task j waiting) as [[c waiting']|] eqn:T; [|apply IH].
    pose proof (take_task_perm _ _ T) as PT. unfold bind.
    destruct (process_change_outcome gen c acc w)
      as [(r & w1 & -> & Hr) | (w1 & -> & Hc)].
    + destruct (IH todo waiting' (acc ++ [r]) w1)
        as (new & done & dropped & w' & E & F & D & P).
      exists (r :: new), (c :: done), dropped, w'.
      rewrite E, <- app_assoc. split; [reflexivity|].
      split; [constructor; assumption|]. split; [exact D|].
      cbn [app].
      apply perm_trans with (c :: waiting' ++ review_files_of todo);
        [apply perm_skip; exact P|].
      exact (Permutation_app_tail (review_files_of todo) PT).
    + destruct (IH todo waiting' acc w1)
        as (new & done & dropped & w' & E & F & D & P).
      exists new, done, (c :: dropped), w'.
      split; [exact E|]. split; [exact F|].
      split; [constructor; assumption|].
      apply perm_trans with (c :: waiting' ++ review_files_of todo);
        [|exact (Permutation_app_tail (review_files_of todo) PT)].
      apply Permutation_sym, Permutation_cons_app, Permutation_sym. exact P.
Qed.

(** The pool itself never raises. *)
Lemma run_pool_returns (gen : change -> M MS (option str)) (sched : schedule)
      (todo waiting : list change) (acc : list (option str)) (w : world MS) :
  exists rs w', run_pool gen sched todo waiting acc w = (inr rs, w').
Proof.
  destruct (run_pool_outcomes gen sched todo waiting acc w)
    as (new & _ & _ & w' & E & _).
  eauto.
Qed.

(** If every call of [generate_review] raises, no result is collected. *)
Lemma run_pool_all_raise (gen : change -> M MS (option str)) :
  (forall c w, exists e w', gen c w = (inl e, w')) ->
  forall sched todo waiting acc w,
    fst (run_pool gen sched todo waiting acc w) = inr acc.
Proof.
  intros Hgen.
  assert (P : forall c acc w,
             exists w', process_change gen c acc w = (inr acc, w')).
  { intros c acc w. unfold process_change.
    destruct (Hgen c w) as (e & w' & ->). eauto. }
  assert (W : forall waiting acc w,
             fst (run_waiting gen waiting acc w) = inr acc).
  { induction waiting as [|c waiting IH]; intros acc w; [reflexivity|].
    rewrite run_waiting_cons. unfold bind.
    destruct (P c acc w) as (w' & ->). apply IH. }
  induction sched as [|[|j] sched IH]; intros todo waiting acc w.
  - rewrite run_pool_nil. unfold bind. rewrite finish_loop_unfold. apply W.
  - destruct todo as [|c rest]; [rewrite run_pool_loop_nil; apply IH|].
    rewrite run_pool_loop_cons. unfold bind. rewrite loop_step_unfold.
    destruct (is_review_file _ _ (new_path c)); apply IH.
  - rewrite run_pool_task.
    destruct (take_task j waiting) as [[c waiting']|]; [|apply IH].
    unfold bind. destruct (P c acc w) as (w' & ->). apply IH.
Qed.

(** X7: whatever [generate_review] does and whatever the schedule, the
    only exception that leaves [chat_review] is the [TypeError] of the
    final join; what a task raises stays in its future. *)
Theorem chat_review_raises_only_the_join_error :
  forall (gen : change -> M MS (option str)) (cs : list change)
         (sched : schedule) (w : world MS) (e : exn),
    fst (chat_review cs gen sched w) = inl e ->
    exists i,
      e = TypeError (py "sequence item " ++ str_of_Z (Z.of_nat i)
                        ++ py ": expected str instance, NoneType found").
Proof.
  intros gen cs sched w e. unfold chat_review. rewrite bind_log_info.
  unfold bind.
  destruct (run_pool_returns gen sched cs [] []
              (snd (log_info (py "开始code review") w)))
    as (rs & w' & ->).
  destruct rs as [|r rs]; [discriminate|].
  unfold lift, str_join. rewrite join_items_spec.
  destruct (first_none (r :: rs)) as [i|]; [|discriminate].
  cbn [fst]. intros [= <-]. exists i. reflexivity.
Qed.

End DispatcherFacts.

(** X7, at a worker that returns [None] for [a.py]. *)
Lemma chat_review_raises_only_the_join_error_witness :
  exists i,
    TypeError (py "sequence item 0: expected str instance, NoneType found")
    = TypeError (py "sequence item " ++ str_of_Z (Z.of_nat i)
                    ++ py ": expected str instance, NoneType found").
Proof.
  apply (@chat_review_raises_only_the_join_error
           nat (Demo.worker 2) [Demo.file "a.py"] [] Demo.start
           (TypeError
              (py "sequence item 0: expected str instance, NoneType found"))).
  vm_compute. reflexivity.
Defined.

(* ================================================================== *)
(** * Further facts: what the worker hands over *)
(* ================================================================== *)

Section WorkerFacts.

Variable MS : Type.
Variable filter_diff_content : str -> exn + str.
Variable GPT_MESSAGE : str.
Variable repr_messages : list message -> str.

Lemma returns_bind {A B} (P : B -> Prop) (m : M MS A) (k : A -> M MS B) :
  (forall a, returns P (k a)) -> returns P (bind m k).
Proof.
  intros Hk w b w'. unfold bind.
  destruct (m w) as [[e|a] w1]; [discriminate|]. apply Hk.
Qed.

Lemma returns_ret {A} (P : A -> Prop) (a : A) : P a -> returns (MS:=MS) P (ret a).
Proof. intros H w b w' [= <- _]. exact H. Qed.

Lemma returns_lift_inl {A B} (P : B -> Prop) (e : exn) (k : A -> M MS B) :
  returns P (bind (lift (inl e)) k).
Proof. intros w b w'. unfold bind, lift. discriminate. Qed.

Lemma body_returns_headed_note (c : change) (model : LLM MS) :
  returns (fun note => result_ok filter_diff_content c (Some note))
          (generate_review_note_body filter_diff_content GPT_MESSAGE
                                     repr_messages c model).
Proof.
  unfold generate_review_note_body.
  do 2 (apply returns_bind; intros _).
  destruct (filter_diff_content (diff c)) as [e|content] eqn:F;
    [apply returns_lift_inl|].
  apply returns_bind; intros content'.
  repeat (apply returns_bind; intros ?).
  cbv zeta. apply returns_ret. split; [|eauto].
  unfold has_heading. rewrite <- !app_assoc.
  rewrite (app_assoc (py "# 📚`")), (app_assoc (py "# 📚`" ++ new_path c)).
  rewrite <- (app_assoc (py "# 📚`")).
  apply startswith_self.
Qed.

(** What the worker returns, one of its attempts returned. *)
Lemma worker_result_ok (c : change) (model : LLM MS) (w w' : world MS)
      (r : option str) :
  generate_review_note filter_diff_content GPT_MESSAGE repr_messages c model w
  = (inr r, w') ->
  result_ok filter_diff_content c r.
Proof.
  unfold generate_review_note, retry. intros H.
  destruct (@retry_call_returned MS _ 60000 _ r _ w w' H) as (w0 & U).
  rewrite undecorated_unfold in U.
  destruct (generate_review_note_body _ _ _ c model w0) as [[e|note] w1] eqn:E.
  - destruct (is_Exception e); [|discriminate].
    injection U as <- _. exact I.
  - injection U as <- _.
    exact (body_returns_headed_note c model w0 E).
Qed.

Lemma body_filter_raised (c : change) (model : LLM MS) (w : world MS)
      (e : exn) :
  filter_diff_content (diff c) = inl e ->
  exists w1,
    generate_review_note_body filter_diff_content GPT_MESSAGE repr_messages
                              c model w = (inl e, w1).
Proof.
  intros F. unfold generate_review_note_body.
  rewrite !bind_log_info. unfold bind at 1, lift at 1. rewrite F.
  eexists. reflexivity.
Qed.

(** A file on which the diff filter raises an [Exception] always gets
    [None]. *)
Lemma worker_returns_None (c : change) (model : LLM MS) (w : world MS)
      (e : exn) :
  filter_diff_content (diff c) = inl e ->
  is_Exception e = true ->
  exists w',
    generate_review_note filter_diff_content GPT_MESSAGE repr_messages
                         c model w = (inr None, w').
Proof.
  intros F I. rewrite worker_unfold, undecorated_unfold.
  destruct (body_filter_raised c model w F) as (w1 & ->).
  rewrite I. eauto.
Qed.


Lemma quiet_worker_calm (c : change) (model : LLM MS) :
  raises_only_Exception model ->
  filter_raises_only_Exception filter_diff_content ->
  quiet 1 0 (generate_review_note filter_diff_content GPT_MESSAGE
                                  repr_messages c model).
Proof.
  intros Hm Hf w.
  destruct (@worker_is_undecorated MS filter_diff_content GPT_MESSAGE
              repr_messages c model w Hm Hf) as (-> & _).
  apply quiet_undecorated.
Qed.

(** With a model whose [generate_text] is always interrupted and a diff
    filter that returns, every call of the worker raises. *)
Lemma worker_interrupted (c : change) (model : LLM MS) (w : world MS) :
  always_interrupted model ->
  (forall d, exists content, filter_diff_content d = inr content) ->
  exists e w',
    generate_review_note filter_diff_content GPT_MESSAGE repr_messages
                         c model w = (inl e, w').
Proof.
  intros Hm Hf.
  assert (U : forall w0, exists e w1,
               generate_review_note_undecorated filter_diff_content
                 GPT_MESSAGE repr_messages c model w0 = (inl e, w1)).
  { intros w0. rewrite undecorated_unfold.
    unfold generate_review_note_body.
    rewrite !bind_log_info. unfold bind at 1, lift at 1.
    destruct (Hf (diff c)) as (content & ->).
    cbv zeta. rewrite !bind_log_info.
    unfold bind at 1, model_generate_text at 1, on_model at 1.
    simpl model_state.
    match goal with
    | |- context [generate_text model ?ms ?s] =>
      destruct (Hm ms s) as (e & He & Ie);
      destruct (generate_text model ms s) as [r s1]
    end.
    cbn [fst] in He. subst r. rewrite Ie. eauto. }
  unfold generate_review_note, retry. cbn [Nat.sub].
  rewrite retry_call_S. destruct (U w) as (e1 & w1 & ->).
  rewrite retry_call_S.
  destruct (U (snd (sleep_ms 60000 w1))) as (e2 & w2 & ->).
  rewrite retry_call_O. apply U.
Qed.

End WorkerFacts.

Section HandlerFacts.

Variable MS : Type.
Variable filter_diff_content : str -> exn + str.
Variable GPT_MESSAGE : str.
Variable repr_messages : list message -> str.
Variable MergeInfo : Type.

Abbreviation the_worker model :=
  (fun c => generate_review_note filter_diff_content GPT_MESSAGE
              repr_messages c model).


(** The results [chat_review] collects with the worker of the handler. *)
Lemma run_pool_worker (model : LLM MS) (cs : list change) (sched : schedule)
      (w : world MS) :
  exists results reviewed interrupted w',
    run_pool (the_worker model) sched cs [] [] w = (inr results, w')
    /\ Forall2 (result_ok filter_diff_content) reviewed results
    /\ Forall (can_raise (the_worker model)) interrupted
    /\ Permutation (reviewed ++ interrupted) (review_files_of cs).
Proof.
  destruct (run_pool_outcomes (the_worker model) sched cs [] [] w)
    as (new & done & dropped & w' & E & F & D & P).
  exists new, done, dropped, w'. cbn [app] in *.
  split; [exact E|]. split; [|split; assumption].
  clear E P. induction F as [|c r cs' rs (w0 & w1 & Hr) F IH]; constructor.
  - exact (@worker_result_ok MS filter_diff_content GPT_MESSAGE
             repr_messages c model w0 w1 r Hr).
  - exact IH.
Qed.






Lemma falsy_returns (changes : option (list change)) (mi : MergeInfo)
      (hook : hook_info) (model : LLM MS) (sched : schedule) (w : world MS) :
  truthy changes = false ->
  default_handle filter_diff_content GPT_MESSAGE repr_messages
                 changes mi hook model sched w
  = (inr tt,
     snd (log_info (py "❌ 没有检测到文件变更")
            (snd (log_info (py "处理状态检查:") w)))).
Proof.
  intros H. unfold default_handle. rewrite bind_log_info, H. reflexivity.
Qed.

(** How a run of [default_handle] ends, guard by guard. *)
Lemma default_handle_cases (changes : option (list change)) (mi : MergeInfo)
      (hook : hook_info) (model : LLM MS) (sched : schedule) (w : world MS) :
  (exists lines,
      default_handle filter_diff_content GPT_MESSAGE repr_messages
                     changes mi hook model sched w
      = (inr tt, snd (for_each lines (fun l => log_info l) w)))
  \/ (exists cs,
         changes = Some cs
         /\ cs <> []
         /\ List.length cs <= Config.MAX_FILES
         /\ review_files_of cs <> []).
Proof.
  destruct (truthy changes) eqn:T.
  - destruct changes as [[|c cs]|]; try discriminate.
    destruct (Nat.ltb_spec Config.MAX_FILES (List.length (c :: cs)))
      as [Hover|Hle].
    + left. eexists [_; _].
      rewrite (@over_limit_returns MS filter_diff_content GPT_MESSAGE
                 repr_messages MergeInfo (c :: cs) mi hook model sched w
                 Hover).
      reflexivity.
    + destruct (review_files_of (c :: cs)) as [|f fs] eqn:E.
      * left. eexists [_; _].
        rewrite (@no_review_files_returns MS filter_diff_content GPT_MESSAGE
                   repr_messages MergeInfo (c :: cs) mi hook model sched w
                   ltac:(discriminate) Hle E).
        reflexivity.
      * right. exists (c :: cs). rewrite E.
        repeat split; try discriminate; assumption.
  - left. eexists [_; _]. rewrite (@falsy_returns _ mi hook model sched w T).
    reflexivity.
Qed.


(** X10: for every input and every schedule, [default_handle] passes at
    most three payloads to [model.generate_text] per file that passes the
    filter and sleeps at most twice per such file; when the model and the
    diff filter raise [Exception]s only, it passes at most one payload per
    such file and never sleeps. *)
Theorem default_handle_calls_model_at_most_thrice_per_reviewable_file :
  forall (changes : option (list change)) (mi : MergeInfo) (hook : hook_info)
         (model : LLM MS) (sched : schedule) (w : world MS),
    let r := default_handle filter_diff_content GPT_MESSAGE repr_messages
                            changes mi hook model sched w in
    (exists slept sent,
        sleeps (snd r) = sleeps w ++ slept
        /\ List.length slept <= reviewable_count changes * 2
        /\ generate_calls (snd r) = generate_calls w ++ sent
        /\ List.length sent <= reviewable_count changes * 3)
    /\ (raises_only_Exception model ->
        filter_raises_only_Exception filter_diff_content ->
        sleeps (snd r) = sleeps w
        /\ exists sent,
             generate_calls (snd r) = generate_calls w ++ sent
             /\ List.length sent <= reviewable_count changes).
Proof.
  intros changes mi hook model sched w. cbv zeta.
  assert (G : forall k s,
             (forall c, quiet k s (the_worker model c)) ->
             exists slept sent,
               sleeps (snd (default_handle filter_diff_content GPT_MESSAGE
                              repr_messages changes mi hook model sched w))
               = sleeps w ++ slept
               /\ List.length slept <= reviewable_count changes * s
               /\ generate_calls
                    (snd (default_handle filter_diff_content GPT_MESSAGE
                            repr_messages changes mi hook model sched w))
                  = generate_calls w ++ sent
               /\ List.length sent <= reviewable_count changes * k).
  { intros k s Hgen.
    destruct (default_handle_cases changes mi hook model sched w)
      as [(lines & E) | (cs & -> & Hne & Hle & Hsome)].
    - rewrite E.
      destruct (for_each_logs (fun l : str => l) lines w)
        as (_ & _ & Hc & Hs & _).
      cbv zeta in *. exists [], []. rewrite !app_nil_r.
      repeat split; try assumption; simpl; lia.
    - rewrite (@review_runs MS filter_diff_content GPT_MESSAGE repr_messages
                 MergeInfo cs mi hook model sched w Hne Hle Hsome).
      destruct (@quiet_chat_review MS (the_worker model) cs sched k s Hgen
                  (dispatch_start cs w))
        as (_ & (slept & Hs & Hn) & sent & Hc & Hl).
      exists slept, sent. cbn [reviewable_count].
      destruct (chat_review cs _ sched (dispatch_start cs w))
        as [[e|[|x info]] w2]; cbn [snd] in *;
        repeat split; assumption. }
  split.
  - apply G. intros c. apply quiet_worker.
  - intros Hm Hf.
    destruct (G 1 0 (fun c => @quiet_worker_calm MS filter_diff_content
                                 GPT_MESSAGE repr_messages c model Hm Hf))
      as (slept & sent & Hs & Hn & Hc & Hl).
    rewrite Nat.mul_0_r in Hn. rewrite Nat.mul_1_r in Hl.
    destruct slept; [|simpl in Hn; lia]. rewrite app_nil_r in Hs.
    split; [exact Hs|]. exists sent. split; assumption.
Qed.

(** X15: if every call of [model.generate_text] is interrupted by
    something that is not an [Exception] and the diff filter returns, then
    for a change list within the limit with a reviewable file no review is
    collected under any schedule, and [default_handle] returns after
    sending the pass notice alone. *)
Theorem interrupted_reviews_end_in_the_pass_notice :
  forall (cs : list change) (mi : MergeInfo) (hook : hook_info)
         (model : LLM MS) (sched : schedule) (w : world MS),
    always_interrupted model ->
    (forall d, exists content, filter_diff_content d = inr content) ->
    List.length cs <= Config.MAX_FILES ->
    review_files_of cs <> [] ->
    let r := default_handle filter_diff_content GPT_MESSAGE repr_messages
                            (Some cs) mi hook model sched w in
    fst r = inr tt
    /\ new_replies w (snd r) = [pass_notice hook (List.length cs)].
Proof.
  intros cs mi hook model sched w Hm Hf Hle Hsome. cbv zeta.
  assert (Hne : cs <> []) by (intros ->; apply Hsome; reflexivity).
  rewrite (@review_runs MS filter_diff_content GPT_MESSAGE repr_messages
             MergeInfo cs mi hook model sched w Hne Hle Hsome).
  pose proof (@chat_review_keeps_replies MS filter_diff_content GPT_MESSAGE
                repr_messages model cs sched (dispatch_start cs w)) as Hq.
  rewrite dispatch_start_replies in Hq.
  assert (C : fst (chat_review cs (the_worker model) sched
                               (dispatch_start cs w)) = inr []).
  { unfold chat_review. rewrite bind_log_info. unfold bind.
    pose proof (@run_pool_all_raise MS (the_worker model)
                  (fun c w0 => @worker_interrupted MS filter_diff_content
                                 GPT_MESSAGE repr_messages c model w0 Hm Hf)
                  sched cs [] []
                  (snd (log_info (py "开始code review")
                                 (dispatch_start cs w)))) as R.
    destruct (run_pool _ sched cs [] [] _) as [[e|rs] w1];
      cbn [fst] in R; [discriminate|].
    injection R as ->. reflexivity. }
  destruct (chat_review cs _ sched (dispatch_start cs w))
    as [[e|text] w2]; cbn [fst snd] in *; [discriminate|].
  injection C as ->.
  split; [reflexivity|]. apply new_replies_app. simpl. congruence.
Qed.

End HandlerFacts.

(* ================================================================== *)
(** * Further facts: payload and failed files *)
(* ================================================================== *)

Section PayloadFacts.

Variable MS : Type.
Variable filter_diff_content : str -> exn + str.
Variable GPT_MESSAGE : str.
Variable repr_messages : list message -> str.

Lemma on_model_calls {A} (f : MS -> (exn + A) * MS) (w : world MS) :
  generate_calls (snd (on_model f w)) = generate_calls w.
Proof. unfold on_model. destruct (f (model_state w)). reflexivity. Qed.

Lemma body_payload (c : change) (model : LLM MS) (w : world MS) :
  generate_calls
    (snd (generate_review_note_body filter_diff_content GPT_MESSAGE
                                    repr_messages c model w))
  = match filter_diff_content (diff c) with
    | inl _ => generate_calls w
    | inr content => generate_calls w ++ [payload GPT_MESSAGE content]
    end.
Proof.
  unfold generate_review_note_body.
  rewrite !bind_log_info.
  unfold bind at 1, lift at 1.
  destruct (filter_diff_content (diff c)) as [e|content]; [reflexivity|].
  cbv zeta. rewrite !bind_log_info.
  unfold bind at 1, model_generate_text at 1, on_model at 1. simpl model_state.
  destruct (generate_text model _ _) as [[e|[]] s1]; [reflexivity|].
  rewrite bind_log_info.
  unfold bind at 1, model_get_respond_content at 1, on_model at 1.
  simpl model_state.
  destruct (get_respond_content model s1) as [[e|raw] s2]; [reflexivity|].
  rewrite bind_log_info.
  unfold bind at 1, model_get_respond_tokens at 1, on_model at 1.
  simpl model_state.
  destruct (get_respond_tokens model s2) as [[e|tokens] s3]; reflexivity.
Qed.

(** One attempt of the worker: no sleep, and the payload of the file if
    the diff filter returned. *)
Lemma undecorated_effect (c : change) (model : LLM MS) (w : world MS) :
  let w' := snd (generate_review_note_undecorated filter_diff_content
                   GPT_MESSAGE repr_messages c model w) in
  sleeps w' = sleeps w
  /\ generate_calls w'
     = generate_calls w
       ++ match filter_diff_content (diff c) with
          | inl _ => []
          | inr content => [payload GPT_MESSAGE content]
          end.
Proof.
  cbv zeta. split.
  - exact (within_no_sleep (@quiet_undecorated MS filter_diff_content
                              GPT_MESSAGE repr_messages c model w)).
  - rewrite undecorated_unfold. pose proof (body_payload c model w) as B.
    destruct (generate_review_note_body _ _ _ c model w) as [[e|note] w1];
      cbn [snd] in B.
    + assert (E : generate_calls
                    (snd (if is_Exception e
                          then (inr None,
                                snd (log_error (py "GPT error:" ++ exn_str e)
                                               w1))
                          else (@inl exn (option str) e, w1)))
                  = generate_calls w1)
        by (destruct (is_Exception e); reflexivity).
      rewrite E, B.
      destruct (filter_diff_content (diff c));
        [rewrite app_nil_r|]; reflexivity.
    + cbn [snd]. rewrite B.
      destruct (filter_diff_content (diff c));
        [rewrite app_nil_r|]; reflexivity.
Qed.

(** The attempts of a decorated call whose every attempt sends [p]. *)
Lemma retry_call_attempts {A} (ms : Z) (fn : M MS A)
      (p : list (list message)) :
  (forall w, sleeps (snd (fn w)) = sleeps w
             /\ generate_calls (snd (fn w)) = generate_calls w ++ p) ->
  forall n w,
  exists attempts,
    1 <= attempts <= S n
    /\ sleeps (snd (retry_call n ms fn w))
       = sleeps w ++ repeat ms (attempts - 1)
    /\ generate_calls (snd (retry_call n ms fn w))
       = generate_calls w ++ concat (repeat p attempts)
    /\ (forall e, fst (retry_call n ms fn w) = inl e -> attempts = S n)
    /\ (forall a, fst (fn w) = inr a -> attempts = 1).
Proof.
  intros Hfn. induction n as [|n IH]; intros w.
  - rewrite retry_call_O. destruct (Hfn w) as (Hs & Hc). exists 1.
    cbn [Nat.sub repeat concat]. rewrite !app_nil_r.
    repeat split; auto.
  - rewrite retry_call_S. destruct (Hfn w) as (Hs & Hc).
    destruct (fn w) as [[e|a] w1] eqn:E; cbn [fst snd] in *.
    + destruct (IH (snd (sleep_ms ms w1))) as (k & Hk & Hs' & Hc' & He & _).
      exists (S k). split; [lia|]. split; [|split; [|split]].
      * rewrite Hs'. cbn [sleep_ms snd sleeps]. rewrite Hs.
        replace (S k - 1) with (S (k - 1)) by lia.
        cbn [repeat]. rewrite <- app_assoc. reflexivity.
      * rewrite Hc'. cbn [sleep_ms snd generate_calls]. rewrite Hc.
        cbn [repeat concat]. rewrite <- app_assoc. reflexivity.
      * intros e0 H0. rewrite (He e0 H0). reflexivity.
      * intros a. discriminate.
    + exists 1. cbn [Nat.sub repeat concat]. rewrite !app_nil_r.
      repeat split; auto; try lia. intros e0. discriminate.
Qed.

Lemma concat_repeat_single {A} (x : A) (n : nat) :
  concat (repeat [x] n) = repeat x n.
Proof. induction n as [|n IH]; [reflexivity|]. simpl. rewrite IH. reflexivity. Qed.

Lemma concat_repeat_nil {A} (n : nat) : concat (repeat (@nil A) n) = [].
Proof. induction n as [|n IH]; [reflexivity|]. simpl. exact IH. Qed.

(** X11: the worker makes one to three attempts, sleeping 60000 ms between
    two attempts.  Each attempt calls [model.generate_text] once, with the
    system prompt followed by the user message holding the filtered diff,
    when [filter_diff_content] returns, and not at all when it raises.
    Three attempts were made when the worker raises; a single one is made
    when the model and the diff filter raise [Exception]s only. *)
Theorem worker_sends_prompt_and_filtered_diff :
  forall (c : change) (model : LLM MS) (w : world MS),
    let r := generate_review_note filter_diff_content GPT_MESSAGE
                                  repr_messages c model w in
    exists attempts,
      1 <= attempts <= 3
      /\ sleeps (snd r) = sleeps w ++ repeat 60000%Z (attempts - 1)
      /\ generate_calls (snd r)
         = generate_calls w
           ++ match filter_diff_content (diff c) with
              | inl _ => []
              | inr content => repeat (payload GPT_MESSAGE content) attempts
              end
      /\ (forall e, fst r = inl e -> attempts = 3)
      /\ (raises_only_Exception model ->
          filter_raises_only_Exception filter_diff_content ->
          attempts = 1).
Proof.
  intros c model w. cbv zeta. unfold generate_review_note, retry.
  cbn [Nat.sub].
  destruct (@retry_call_attempts (option str) 60000
              (generate_review_note_undecorated filter_diff_content
                 GPT_MESSAGE repr_messages c model)
              _ (undecorated_effect c model) 2 w)
    as (attempts & Hk & Hs & Hc & He & Hr).
  exists attempts. split; [exact Hk|]. split; [exact Hs|].
  split; [|split; [exact He|]].
  - rewrite Hc. destruct (filter_diff_content (diff c)).
    + rewrite concat_repeat_nil. reflexivity.
    + rewrite concat_repeat_single. reflexivity.
  - intros Hm Hf.
    destruct (@worker_is_undecorated MS filter_diff_content GPT_MESSAGE
                repr_messages c model w Hm Hf) as (E & r & w' & R).
    apply (Hr r). rewrite <- E, R. reflexivity.
Qed.

Variable MergeInfo : Type.

Lemma first_none_of_failed (cs : list change) (rs : list (option str))
      (c : change) (e : exn) :
  Forall2 (result_ok filter_diff_content) cs rs ->
  In c cs ->
  filter_diff_content (diff c) = inl e ->
  exists i, first_none rs = Some i.
Proof.
  intros F Hin He. induction F as [|c0 r cs rs Hr F IH]; [destruct Hin|].
  destruct r as [note|]; [|exists 0; reflexivity].
  destruct Hin as [-> | Hin].
  - destruct Hr as (_ & content & Hc). congruence.
  - destruct (IH Hin) as (i & Hi). exists (S i).
    cbn [first_none]. rewrite Hi. reflexivity.
Qed.

Lemma chat_review_fails (model : LLM MS) (cs : list change) (c : change)
      (e : exn) (sched : schedule) (w : world MS) :
  In c (review_files_of cs) ->
  filter_diff_content (diff c) = inl e ->
  is_Exception e = true ->
  exists i,
    fst (chat_review cs
           (fun c => generate_review_note filter_diff_content GPT_MESSAGE
                       repr_messages c model) sched w)
    = inl (TypeError (py "sequence item " ++ str_of_Z (Z.of_nat i)
                         ++ py ": expected str instance, NoneType found")).
Proof.
  intros Hin He Ie. unfold chat_review. rewrite bind_log_info. unfold bind.
  destruct (@run_pool_worker MS filter_diff_content GPT_MESSAGE repr_messages
              model cs sched (snd (log_info (py "开始code review") w)))
    as (results & reviewed & interrupted & w1 & E & F & D & P).
  rewrite E.
  assert (Hc : In c reviewed).
  { apply (@Permutation_in _ _ _ c (Permutation_sym P)) in Hin.
    apply in_app_or in Hin as [Hin|Hin]; [exact Hin|].
    rewrite Forall_forall in D.
    destruct (D c Hin) as (w0 & e0 & w2 & R).
    destruct (@worker_returns_None MS filter_diff_content GPT_MESSAGE
                repr_messages c model w0 e He Ie) as (w3 & R').
    congruence. }
  destruct (@first_none_of_failed reviewed results c e F Hc He) as (i & Hi).
  destruct results as [|r results]; [discriminate|].
  unfold lift, str_join. rewrite join_items_spec, Hi. exists i. reflexivity.
Qed.

(** X12: if [filter_diff_content] raises an [Exception] on one reviewable
    file of a change list within the limit, [default_handle] raises the
    [TypeError] of the join and adds nothing to the sink, whatever the
    schedule and whatever the reviews of the other files gave. *)
Theorem one_failed_file_aborts_the_whole_event :
  forall (cs : list change) (mi : MergeInfo) (hook : hook_info)
         (model : LLM MS) (sched : schedule) (w : world MS) (c : change)
         (e : exn),
    List.length cs <= Config.MAX_FILES ->
    In c (review_files_of cs) ->
    filter_diff_content (diff c) = inl e ->
    is_Exception e = true ->
    let r := default_handle filter_diff_content GPT_MESSAGE repr_messages
                            (Some cs) mi hook model sched w in
    (exists i,
        fst r = inl (TypeError
                       (py "sequence item " ++ str_of_Z (Z.of_nat i)
                           ++ py ": expected str instance, NoneType found")))
    /\ new_replies w (snd r) = [].
Proof.
  intros cs mi hook model sched w c e Hle Hin He Ie. cbv zeta.
  assert (Hsome : review_files_of cs <> [])
    by (intros E; rewrite E in Hin; destruct Hin).
  assert (Hne : cs <> []) by (intros ->; apply Hsome; reflexivity).
  rewrite (@review_runs MS filter_diff_content GPT_MESSAGE repr_messages
             MergeInfo cs mi hook model sched w Hne Hle Hsome).
  destruct (@chat_review_fails model cs c e sched (dispatch_start cs w)
              Hin He Ie) as (i & Hi).
  pose proof (@chat_review_keeps_replies MS filter_diff_content GPT_MESSAGE
                repr_messages model cs sched (dispatch_start cs w)) as Hq.
  rewrite dispatch_start_replies in Hq.
  destruct (chat_review cs _ sched (dispatch_start cs w)) as [[e'|text] w2];
    cbn [fst snd] in *; [|discriminate].
  injection Hi as ->.
  split; [exists i; reflexivity|]. apply new_replies_same. exact Hq.
Qed.

End PayloadFacts.

(** X12, at [a.py] followed by a binary file the filter refuses, the
    second review completing first. *)
Lemma one_failed_file_aborts_the_whole_event_witness :
  let cs := [Demo.file "a.py"; Faulty.image] in
  let sched := [0; 0; 2; 1] in
  List.length cs <= Config.MAX_FILES
  /\ In Faulty.image (review_files_of cs)
  /\ (exists i,
        fst (Faulty.handle sched (Some cs))
        = inl (TypeError
                 (py "sequence item " ++ str_of_Z (Z.of_nat i)
                     ++ py ": expected str instance, NoneType found")))
  /\ new_replies Demo.start (snd (Faulty.handle sched (Some cs))) = [].
Proof.
  cbv zeta.
  assert (Hle : List.length [Demo.file "a.py"; Faulty.image]
                <= Config.MAX_FILES)
    by (unfold Config.MAX_FILES; simpl; lia).
  assert (Hin : In Faulty.image
                   (review_files_of [Demo.file "a.py"; Faulty.image]))
    by (right; left; reflexivity).
  split; [exact Hle|]. split; [exact Hin|].
  exact (@one_failed_file_aborts_the_whole_event
           nat Faulty.reject_binary Demo.prompt Demo.show_messages unit
           [Demo.file "a.py"; Faulty.image] tt Demo.hook
           (Demo.flaky_model 0) [0; 0; 2; 1] Demo.start Faulty.image
           (OtherError (py "ValueError") (py "binary diff"))
           Hle Hin eq_refl eq_refl).
Defined.

(* ================================================================== *)
(** * Further facts: the entry point *)
(* ================================================================== *)

Section MergeHandleFacts.

Variable MS : Type.
Variable filter_diff_content : str -> exn + str.
Variable GPT_MESSAGE : str.
Variable repr_messages : list message -> str.
Variable MergeInfo : Type.

Lemma bind_lift_inr {A B} (a : A) (k : A -> M MS B) (w : world MS) :
  bind (lift (inr a)) k w = k a w.
Proof. reflexivity. Qed.

Lemma logged_more_log (n : nat) (msg : str) (w w' : world MS) :
  logged_more n (snd (log_info msg w)) w' -> logged_more (S n) w w'.
Proof.
  intros (H1 & H2 & H3 & H4 & H5). repeat split; try assumption.
  rewrite H5. simpl. rewrite length_app. simpl. lia.
Qed.

Lemma logged_more_refl (w : world MS) : logged_more 0 w w.
Proof. repeat split. lia. Qed.

Lemma logged_more_for_each {A} (f : A -> str) (xs : list A) (w : world MS) :
  logged_more (List.length xs) w
              (snd (for_each xs (fun x => log_info (f x)) w)).
Proof. exact (for_each_logs f xs w). Qed.

(** After a successful [get_changes], [merge_handle] writes three log
    entries and one per changed file, then asks for the merge info. *)
Lemma merge_handle_after_fetch (cs : list change) (info : exn + MergeInfo)
      (hook : hook_info) (model : LLM MS) (sched : schedule) (w : world MS) :
  exists w',
    logged_more (3 + List.length cs) w w'
    /\ merge_handle filter_diff_content GPT_MESSAGE repr_messages
                    {| get_changes := inr (Some cs); get_info := info |}
                    hook model sched w
       = match info with
         | inl e => (inl e, w')
         | inr mi =>
           default_handle filter_diff_content GPT_MESSAGE repr_messages
                          (Some cs) mi hook model sched w'
         end.
Proof.
  unfold merge_handle. cbn [get_changes get_info].
  rewrite bind_log_info, bind_lift_inr. cbn [len].
  rewrite bind_ret, bind_log_info.
  destruct cs as [|c cs].
  - cbn [truthy]. rewrite bind_ret, bind_log_info, bind_ret.
    eexists. split; cycle 1.
    + destruct info as [e|mi]; reflexivity.
    + do 3 (eapply logged_more_log). apply logged_more_refl.
  - cbn [truthy len iter]. rewrite bind_ret, bind_log_info.
    unfold bind at 1. rewrite bind_ret.
    match goal with
    | |- context [for_each ?xs (fun x => log_info (@?f x)) ?w0] =>
      pose proof (for_each_logs_returns f xs w0) as R;
      pose proof (logged_more_for_each f xs w0) as L;
      destruct (for_each xs (fun x => log_info (f x)) w0) as [[e|[]] w4]
    end; [discriminate|].
    cbn [snd] in L. exists w4. split.
    + do 3 (eapply logged_more_log). exact L.
    + destruct info as [e|mi]; reflexivity.
Qed.

(** X13: after a successful fetch, [merge_handle] writes three log entries
    and one per changed file, changes nothing else, and then is
    [default_handle] on the fetched changes and merge info. *)
Theorem merge_handle_logs_then_runs_default_handle :
  forall (cs : list change) (mi : MergeInfo) (hook : hook_info)
         (model : LLM MS) (sched : schedule) (w : world MS),
  exists w',
    logged_more (3 + List.length cs) w w'
    /\ merge_handle filter_diff_content GPT_MESSAGE repr_messages
                    {| get_changes := inr (Some cs); get_info := inr mi |}
                    hook model sched w
       = default_handle filter_diff_content GPT_MESSAGE repr_messages
                        (Some cs) mi hook model sched w'.
Proof.
  intros cs mi hook model sched w.
  destruct (merge_handle_after_fetch cs (inr mi) hook model sched w)
    as (w' & L & E).
  exists w'. split; assumption.
Qed.

(** X14: an exception of [get_changes] or of [get_info] leaves
    [merge_handle] as it is: after one log entry for [get_changes], after
    the log entries of the changes for [get_info]; the sink, the model and
    its calls are untouched, so no review happens even for valid changes. *)
Theorem merge_handle_lets_fetcher_exceptions_through :
  forall (e : exn) (cs : list change) (info : exn + MergeInfo)
         (hook : hook_info) (model : LLM MS) (sched : schedule)
         (w : world MS),
    let r1 := merge_handle filter_diff_content GPT_MESSAGE repr_messages
                           {| get_changes := inl e; get_info := info |}
                           hook model sched w in
    let r2 := merge_handle filter_diff_content GPT_MESSAGE repr_messages
                           {| get_changes := inr (Some cs);
                              get_info := (inl e : exn + MergeInfo) |}
                           hook model sched w in
    fst r1 = inl e
    /\ logged_more 1 w (snd r1)
    /\ fst r2 = inl e
    /\ logged_more (3 + List.length cs) w (snd r2).
Proof.
  intros e cs info hook model sched w. cbv zeta. split; [reflexivity|]. split.
  - unfold merge_handle. rewrite bind_log_info. cbn [get_changes].
    unfold bind, lift. cbn [snd].
    eapply logged_more_log. apply logged_more_refl.
  - destruct (@merge_handle_after_fetch cs (inl e) hook model sched w)
      as (w' & L & E).
    rewrite E. split; [reflexivity | exact L].
Qed.

End MergeHandleFacts.

(* ================================================================== *)
(** * Further runs in the concrete setting *)
(* ================================================================== *)

(** X6, at two files outside the include list. *)
Lemma chat_review_without_reviewable_file_returns_empty_witness :
  let cs := [Demo.file "README.md"; Demo.file "docs/guide.txt"] in
  let r := chat_review cs (Demo.worker 0) [1; 0; 2; 0] Demo.start in
  review_files_of cs = []
  /\ fst r = inr []
  /\ generate_calls (snd r) = []
  /\ List.length (logged (snd r)) = 3.
Proof.
  cbv zeta.
  destruct (@chat_review_without_reviewable_file_returns_empty
              nat (Demo.worker 0)
              [Demo.file "README.md"; Demo.file "docs/guide.txt"]
              [1; 0; 2; 0] Demo.start eq_refl) as (E & _ & C & L).
  split; [reflexivity|]. split; [rewrite E; reflexivity|].
  split; [exact C | exact L].
Defined.


(** X15, at [a.py] with a model whose [generate_text] raises
    [SystemExit]. *)
Lemma interrupted_reviews_end_in_the_pass_notice_witness :
  let r := default_handle Demo.keep_diff Demo.prompt Demo.show_messages
                          (Some [Demo.file "a.py"]) tt Demo.hook
                          Demo.exiting_model [] Demo.start in
  fst r = inr tt
  /\ new_replies Demo.start (snd r) = [pass_notice Demo.hook 1].
Proof.
  apply (@interrupted_reviews_end_in_the_pass_notice
           nat Demo.keep_diff Demo.prompt Demo.show_messages unit
           [Demo.file "a.py"] tt Demo.hook Demo.exiting_model []
           Demo.start).
  - intros messages s. exists (BaseOnly (py "SystemExit") (py "1")).
    split; reflexivity.
  - intros d. exists d. reflexivity.
  - unfold Config.MAX_FILES. simpl. lia.
  - discriminate.
Defined.
